(** * Double-DQN agent with frame-stacking replay memory

    A shallow embedding of [Double-DQN/ddqn_agent.py]: the replay memory
    ([ReplayBuffer]: [add], [_encode_state], [get_experiences], [sample]) and
    the agent ([Agent]: [step], [act], [learn], [soft_update]).

    Python integers are [Z]; a [deque] is a list with its [maxlen]; a raised
    exception is the [Raise] case of the result type [py]; tensor elements are
    IEEE binary32 numbers and Python floats IEEE binary64 numbers, both through
    the Standard Library's [SpecFloat]; the outcome of a call to the random
    module is an argument of the function that makes the call. *)

From Stdlib Require Import ZArith List Bool Lia.
From Stdlib Require Import Floats.SpecFloat.
Import ListNotations.
Local Open Scope Z_scope.

Set Implicit Arguments.

(** ** Python results *)

Inductive exn : Type :=
| ValueError
| IndexError
| ZeroDivisionError
| RuntimeError.

Inductive py (A : Type) : Type :=
| Ok (a : A)
| Raise (e : exn).

Arguments Ok {A} a.
Arguments Raise {A} e.

Definition bind {A B : Type} (c : py A) (k : A -> py B) : py B :=
  match c with
  | Ok a => k a
  | Raise e => Raise e
  end.

Notation "x <- c ;; k" := (bind c (fun x => k))
  (at level 61, c at next level, right associativity).

(** A loop body run over a list, left to right, stopping at the first
    exception: a list comprehension or a [for] loop that appends. *)
Fixpoint mapM {A B : Type} (f : A -> py B) (xs : list A) : py (list B) :=
  match xs with
  | [] => Ok []
  | x :: xs' => y <- f x ;; ys <- mapM f xs' ;; Ok (y :: ys)
  end.

(** A [for] loop that updates one variable. *)
Fixpoint foldM {A S : Type} (f : S -> A -> py S) (xs : list A) (s : S) : py S :=
  match xs with
  | [] => Ok s
  | x :: xs' => s' <- f s x ;; foldM f xs' s'
  end.

(** [range(a, b)] *)
Definition range (a b : Z) : list Z :=
  map (fun i => a + Z.of_nat i) (seq 0 (Z.to_nat (b - a))).

(** [len(xs)] *)
Definition len {A : Type} (xs : list A) : Z := Z.of_nat (length xs).

(** [a % n] on Python integers: the sign of the result is that of [n], as
    with [Z.modulo]; a zero divisor raises. *)
Definition py_mod (a n : Z) : py Z :=
  if n =? 0 then Raise ZeroDivisionError else Ok (a mod n).

(** [xs[i]] on a deque or list: negative indices count from the end. *)
Definition getitem {A : Type} (xs : list A) (i : Z) : py A :=
  let j := if i <? 0 then i + len xs else i in
  if j <? 0 then Raise IndexError
  else match nth_error xs (Z.to_nat j) with
       | Some x => Ok x
       | None => Raise IndexError
       end.

(** ** IEEE numbers *)

Definition float32 := spec_float.
Definition float64 := spec_float.

Module F32.
Definition prec : Z := 24.
Definition emax : Z := 128.
Definition add : float32 -> float32 -> float32 := SFadd prec emax.
Definition sub : float32 -> float32 -> float32 := SFsub prec emax.
Definition mul : float32 -> float32 -> float32 := SFmul prec emax.
Definition valid : float32 -> bool := valid_binary prec emax.
Definition zero : float32 := S754_zero false.
Definition one : float32 := S754_finite false 8388608 (-23).
Definition inf : float32 := S754_infinity false.
Definition nan : float32 := S754_nan.
  (** Neither an infinity nor a NaN. *)
Definition finite (x : float32) : bool :=
    match x with
    | S754_zero _ | S754_finite _ _ _ => true
    | _ => false
    end.
  (** The same number: identical, or two zeros (which may differ in sign
      and still compare equal). *)
Definition same (x y : float32) : Prop :=
    x = y \/ (exists s s', x = S754_zero s /\ y = S754_zero s').
End F32.

Module F64.
Definition prec : Z := 53.
Definition emax : Z := 1024.
Definition sub : float64 -> float64 -> float64 := SFsub prec emax.
Definition valid : float64 -> bool := valid_binary prec emax.
Definition zero : float64 := S754_zero false.
Definition one : float64 := S754_finite false 4503599627370496 (-52).
  (** The conversion of a Python scalar to the element type of a binary32
      tensor: round to nearest, ties to even. *)
Definition to_f32 (x : float64) : float32 :=
    match x with
    | S754_finite s m e => binary_normalize F32.prec F32.emax (cond_Zopp s (Zpos m)) e s
    | _ => x
    end.
End F64.

(** ** External collaborators

    The environment's data: [px] is an element of a raw observation frame
    (a frame is the list of its elements, first axis outermost, so that
    concatenating frames that agree on their other axes along the first one
    is list concatenation, and the shape of a frame is its length);
    [px_zero] is the zero of that element type; [div255] is the
    normalisation [x / 255.0] stored as [np.float32]; [rew] is the
    environment's reward and [rew_float] its conversion by [.float()]. *)
Class Env : Type := {
  px : Type;
  px_zero : px;
  div255 : px -> float32;
  rew : Type;
  rew_float : rew -> float32
}.

(** A tensor of two axes is the list of its rows. *)
Definition Tensor2 (A : Type) : Type := list (list A).

(** The [Experience] named tuple; it holds raw frames in the memory and
    encoded states in a sampled batch. *)
Record Experience (S R : Type) : Type := experience {
  state : S;
  action : Z;
  reward : R;
  next_state : S;
  done : bool
}.

(** [np.zeros_like(frame)] *)
Definition zeros_like {A : Type} (zero : A) (frame : list A) : list A :=
  map (fun _ => zero) frame.

(** [np.concatenate(arrays, 0)]: no array to concatenate is an error. *)
Definition np_concatenate {A : Type} (arrays : list (list A)) : py (list A) :=
  match arrays with
  | [] => Raise ValueError
  | _ => Ok (concat arrays)
  end.

(** [np.vstack(arrays)] on arrays of two axes. *)
Definition np_vstack {A : Type} (arrays : list (Tensor2 A)) : py (Tensor2 A) :=
  np_concatenate arrays.

(** [deque.append] on a deque built with [maxlen]: the new element goes to
    the right end, and a deque grown beyond [maxlen] drops its left end. *)
Definition deque_append {A : Type} (maxlen : Z) (d : list A) (x : A) : list A :=
  let d' := d ++ [x] in
  if maxlen <? len d' then tl d' else d'.

(** [random.sample(range(n), k=k)], where [draw] is the list the random
    source comes up with: each list of [k] distinct elements of [range(n)]
    is equally likely. *)
Definition random_sample (n k : Z) (draw : list Z) : py (list Z) :=
  if (k <? 0) || (n <? k) then Raise ValueError else Ok draw.


(** A Python [bool] as [np.uint8] and then as a binary32 number. *)
Definition bool_float (b : bool) : float32 :=
  if b then F32.one else F32.zero.

Module ReplayBuffer.
Section WithEnv.
Context {E : Env}.

Definition Frame : Type := list px.

Record t : Type := mk {
  action_size : Z;
  buffer_size : Z;
  memory : list (Experience Frame rew);
  batch_size : Z;
  frame_history : Z
}.

Definition set_memory (self : t) (m : list (Experience Frame rew)) : t :=
  mk (action_size self) (buffer_size self) m (batch_size self) (frame_history self).

(** [deque(maxlen=buffer_size)] refuses a negative [maxlen]. *)
Definition __init__ (action_size buffer_size batch_size frame_history : Z) : py t :=
  if buffer_size <? 0 then Raise ValueError
  else Ok (mk action_size buffer_size [] batch_size frame_history).

Definition add (self : t) (state : Frame) (action : Z) (reward : rew)
    (next_state : Frame) (done : bool) : t :=
  let e := experience state action reward next_state done in
  set_memory self (deque_append (buffer_size self) (memory self) e).

Definition __len__ (self : t) : Z := len (memory self).

(** Lines 157-176 of [_encode_state]: the list [frames]. The first loop
    runs over the range as it is when the loop starts, whatever it then
    assigns to [start_idx]. *)
Definition _encode_state_frames (self : t) (idx : Z) : py (list Frame) :=
  let end_idx := idx + 1 in
  let start_idx := end_idx - frame_history self in
  let n := len (memory self) in
  let start_idx := if start_idx <? 0 then 0 else start_idx in
  start_idx <-
    foldM (fun start_idx idx =>
             i <- py_mod idx n ;;
             e <- getitem (memory self) i ;;
             Ok (if done e then idx + 1 else start_idx))
          (range start_idx (end_idx - 1)) start_idx ;;
  let missing_context := frame_history self - (end_idx - start_idx) in
  let real_frames :=
    mapM (fun idx => i <- py_mod idx n ;;
                     e <- getitem (memory self) i ;;
                     Ok (state e))
         (range start_idx end_idx) in
  if (start_idx <? 0) || (0 <? missing_context) then
    frames <- mapM (fun _ => e <- getitem (memory self) 0 ;;
                             Ok (zeros_like px_zero (state e)))
                   (range 0 missing_context) ;;
    rest <- real_frames ;;
    Ok (frames ++ rest)
  else real_frames.

(** Line 178: concatenation along the first axis, normalisation and the
    new leading axis of size one. *)
Definition _encode_state (self : t) (idx : Z) : py (Tensor2 float32) :=
  frames <- _encode_state_frames self idx ;;
  stacked <- np_concatenate frames ;;
  Ok [map div255 stacked].

Definition get_experiences (self : t) (experiences_idx : list Z)
    : py (list (Experience (Tensor2 float32) rew)) :=
  mapM (fun idx =>
          state <- _encode_state self idx ;;
          next_state <- _encode_state self (idx + 1) ;;
          ea <- getitem (memory self) idx ;;
          er <- getitem (memory self) idx ;;
          ed <- getitem (memory self) idx ;;
          Ok (experience state (action ea) (reward er) next_state (done ed)))
       experiences_idx.

(** [sample]; [draw] is the outcome of the call to [random.sample]. No
    experience is [None], so the five comprehensions keep them all. *)
Definition sample (self : t) (draw : list Z)
    : py (Tensor2 float32 * Tensor2 Z * Tensor2 float32 * Tensor2 float32
          * Tensor2 float32) :=
  experiences_idx <- random_sample (len (memory self)) (batch_size self) draw ;;
  experiences <- get_experiences self experiences_idx ;;
  states <- np_vstack (map (fun e => state e) experiences) ;;
  actions <- np_vstack (map (fun e => [[action e]]) experiences) ;;
  rewards <- np_vstack (map (fun e => [[rew_float (reward e)]]) experiences) ;;
  next_states <- np_vstack (map (fun e => next_state e) experiences) ;;
  dones <- np_vstack (map (fun e => [[bool_float (done e)]]) experiences) ;;
  Ok (states, actions, rewards, next_states, dones).

End WithEnv.
End ReplayBuffer.

(** ** Tensor operations *)

(** Python's [zip] followed by a function of the pair: stops with the
    shorter list. *)
Definition zip_with {A B C : Type} (f : A -> B -> C) (xs : list A) (ys : list B) : list C :=
  map (fun p => f (fst p) (snd p)) (combine xs ys).

Definition is_nan (x : float32) : bool :=
  match x with
  | S754_nan => true
  | _ => false
  end.

(** The scan shared by [np.argmax] and [torch.max]: the running maximum
    [best] at index [besti] is replaced by an element that is not [<=] it,
    and a NaN ends the scan. The result is the index of the first NaN, or
    else of the first maximal element. *)
Fixpoint argmax_scan (best : float32) (besti i : Z) (xs : list float32) : Z :=
  match xs with
  | [] => besti
  | x :: xs' =>
      if is_nan best then besti
      else if SFleb x best then argmax_scan best besti (i + 1) xs'
      else argmax_scan x i (i + 1) xs'
  end.

(** [np.argmax(a)] on the flattened array. *)
Definition np_argmax (a : list float32) : py Z :=
  match a with
  | [] => Raise ValueError
  | x :: xs => Ok (argmax_scan x 0 1 xs)
  end.

(** [t.max(1, keepdim=True)[1]]: the index of the maximum of each row. *)
Definition torch_argmax_1 (t : Tensor2 float32) : py (Tensor2 Z) :=
  mapM (fun row => match row with
                   | [] => Raise RuntimeError
                   | x :: xs => Ok [argmax_scan x 0 1 xs]
                   end) t.

(** [input.gather(1, index)]: row [i] of the result holds
    [input[i][index[i][j]]]; an index outside its row, or a row of [index]
    without a row of [input], is an error. *)
Fixpoint gather_1 {A : Type} (input : Tensor2 A) (index : Tensor2 Z) : py (Tensor2 A) :=
  match index, input with
  | [], _ => Ok []
  | _ :: _, [] => Raise RuntimeError
  | irow :: index', row :: input' =>
      r <- mapM (fun a => if a <? 0 then Raise RuntimeError
                          else match nth_error row (Z.to_nat a) with
                               | Some x => Ok x
                               | None => Raise RuntimeError
                               end) irow ;;
      rs <- gather_1 input' index' ;;
      Ok (r :: rs)
  end.

(** Broadcasting along one axis: equal sizes pair up, a size of one is
    repeated, anything else is an error. *)
Definition broadcast {A B C : Type} (f : A -> B -> py C) (xs : list A) (ys : list B)
    : py (list C) :=
  if (length xs =? length ys)%nat then mapM (fun p => f (fst p) (snd p)) (combine xs ys)
  else match xs, ys with
       | [x], _ => mapM (f x) ys
       | _, [y] => mapM (fun x => f x y) xs
       | _, _ => Raise RuntimeError
       end.

(** An elementwise operation on two tensors of two axes. *)
Definition tensor_op {A B C : Type} (f : A -> B -> C) (a : Tensor2 A) (b : Tensor2 B)
    : py (Tensor2 C) :=
  broadcast (broadcast (fun x y => Ok (f x y))) a b.

(** An operation with a Python scalar, which is first converted to the
    element type of the tensor. *)
Definition scalar_op {A : Type} (f : float32 -> A -> float32) (s : float64) (a : Tensor2 A)
    : Tensor2 float32 :=
  map (map (f (F64.to_f32 s))) a.

(** ** The networks and the optimizer

    A [QNetwork] is known by its parameter tensors (each the list of its
    elements) and its training-mode flag. [forward params training x] is
    the forward evaluation of a batch [x], one row of action values for each
    row of [x]; [Adam] builds the optimizer and [minimize] is lines 101-109
    of [learn]: the expected values of the taken actions, the smooth L1
    loss against the targets, and one optimizer step on the local network,
    whose new parameters it returns. *)
Record QNetwork : Type := network {
  parameters : list (list float32);
  training : bool
}.

Class Torch : Type := {
  forward : list (list float32) -> bool -> Tensor2 float32 -> Tensor2 float32;
  Optimizer : Type;
  Adam : list (list float32) -> Optimizer;
  minimize : Optimizer -> QNetwork -> Tensor2 float32 -> Tensor2 Z -> Tensor2 float32 ->
             py (Optimizer * list (list float32))
}.

(** [net.eval()] and [net.train()] *)
Definition eval (net : QNetwork) : QNetwork := network (parameters net) false.
Definition train (net : QNetwork) : QNetwork := network (parameters net) true.

(** One forward evaluation as the network sees it: its mode, whether
    gradients are tracked, and its input. *)
Record ForwardCall : Type := forward_call {
  fc_training : bool;
  fc_grad : bool;
  fc_input : Tensor2 float32
}.

(** ** Module constants *)

Definition BUFFER_SIZE : Z := 100000.
Definition BATCH_SIZE : Z := 32.
(** [0.99] *)
Definition GAMMA : float64 := S754_finite false 8917127262193582 (-53).
(** [1e-3] *)
Definition TAU : float64 := S754_finite false 4611686018427388 (-62).
Definition UPDATE_EVERY : Z := 4.

(** A sampled batch: [(states, actions, rewards, next_states, dones)]. *)
Definition Batch : Type :=
  (Tensor2 float32 * Tensor2 Z * Tensor2 float32 * Tensor2 float32 * Tensor2 float32)%type.

(** [random.random()] returns a binary64 number [u] with [0.0 <= u < 1.0],
    never the negative zero. *)
Definition random_outcome (u : float64) : Prop :=
  F64.valid u = true /\ u <> S754_zero true /\
  SFleb F64.zero u = true /\ SFltb u F64.one = true.

(** [random.choice(seq)], where [c] is the position the random source comes
    up with, each position of [seq] being equally likely. *)
Definition random_choice {A : Type} (seq : list A) (c : Z) : py A :=
  match seq with
  | [] => Raise IndexError
  | _ => getitem seq c
  end.

(** What a call of [step] did about learning. *)
Inductive learning : Type :=
| NoLearning
| Learned
| LearningRaised (e : exn).

Module Agent.
Section WithCollaborators.
Context {E : Env} {T : Torch}.

Record t : Type := mk {
  action_size : Z;
  qnetwork_local : QNetwork;
  qnetwork_target : QNetwork;
  optimizer : Optimizer;
  memory : ReplayBuffer.t;
  t_step : Z
}.

Definition set_qnetwork_local (self : t) (net : QNetwork) : t :=
  mk (action_size self) net (qnetwork_target self) (optimizer self) (memory self)
     (t_step self).

Definition set_qnetwork_target (self : t) (net : QNetwork) : t :=
  mk (action_size self) (qnetwork_local self) net (optimizer self) (memory self)
     (t_step self).

Definition set_optimizer (self : t) (opt : Optimizer) : t :=
  mk (action_size self) (qnetwork_local self) (qnetwork_target self) opt (memory self)
     (t_step self).

Definition set_memory (self : t) (m : ReplayBuffer.t) : t :=
  mk (action_size self) (qnetwork_local self) (qnetwork_target self) (optimizer self) m
     (t_step self).

Definition set_t_step (self : t) (k : Z) : t :=
  mk (action_size self) (qnetwork_local self) (qnetwork_target self) (optimizer self)
     (memory self) k.

(** [local] and [target] are the networks the two calls of the [QNetwork]
    constructor return. *)
Definition __init__ (action_size frame_history : Z) (local target : QNetwork) : py t :=
  memory <- ReplayBuffer.__init__ action_size BUFFER_SIZE BATCH_SIZE frame_history ;;
  Ok (mk action_size local target (Adam (parameters local)) memory 0).

(** The parameters of the target network after the loop of [soft_update];
    both networks come from the same constructor, and a pair of parameter
    tensors is combined element by element. *)
Definition soft_update (local_model target_model : QNetwork) (tau : float64) : QNetwork :=
  let blend target_param local_param :=
    zip_with (fun t l => F32.add (F32.mul (F64.to_f32 tau) l)
                                 (F32.mul (F64.to_f32 (F64.sub F64.one tau)) t))
             target_param local_param in
  network (zip_with blend (parameters target_model) (parameters local_model)
           ++ skipn (length (parameters local_model)) (parameters target_model))
          (training target_model).

(** Lines 94-98 of [learn]. *)
Definition Q_targets (self : t) (experiences : Batch) (gamma : float64)
    : py (Tensor2 float32) :=
  let '(states, actions, rewards, next_states, dones) := experiences in
  next_state_actions <-
    torch_argmax_1 (forward (parameters (qnetwork_local self))
                            (training (qnetwork_local self)) next_states) ;;
  Q_targets_next <-
    gather_1 (forward (parameters (qnetwork_target self))
                      (training (qnetwork_target self)) next_states)
             next_state_actions ;;
  bootstrap <- tensor_op F32.mul (scalar_op F32.mul gamma Q_targets_next)
                                 (scalar_op F32.sub F64.one dones) ;;
  tensor_op F32.add rewards bootstrap.

Definition learn (self : t) (experiences : Batch) (gamma : float64) : py t :=
  let '(states, actions, rewards, next_states, dones) := experiences in
  targets <- Q_targets self experiences gamma ;;
  r <- minimize (optimizer self) (qnetwork_local self) states actions targets ;;
  let self := set_qnetwork_local self (network (snd r) (training (qnetwork_local self))) in
  let self := set_optimizer self (fst r) in
  Ok (set_qnetwork_target self
        (soft_update (qnetwork_local self) (qnetwork_target self) TAU)).

(** [step]; [draw] is the outcome of [random.sample] should [sample] be
    called. The transition is recorded and the counter advanced whatever
    happens afterwards. *)
Definition step (self : t) (state : ReplayBuffer.Frame) (action : Z) (reward : rew)
    (next_state : ReplayBuffer.Frame) (done : bool) (draw : list Z) : t * learning :=
  let self :=
    set_memory self (ReplayBuffer.add (memory self) state action reward next_state done) in
  let self := set_t_step self ((t_step self + 1) mod UPDATE_EVERY) in
  if t_step self =? 0 then
    if BATCH_SIZE <? ReplayBuffer.__len__ (memory self) then
      match (experiences <- ReplayBuffer.sample (memory self) draw ;;
             learn self experiences GAMMA) with
      | Ok self' => (self', Learned)
      | Raise e => (self, LearningRaised e)
      end
    else (self, NoLearning)
  else (self, NoLearning).

(** The result of [act]: the agent afterwards, the value returned, the
    forward evaluations made, and the gradient mode afterwards. *)
Record ActResult : Type := act_result {
  act_self : t;
  act_return : py Z;
  act_calls : list ForwardCall;
  act_grad : bool
}.

(** [act]; [state] is the array after [.float()], [u] the outcome of
    [random.random()], [c] that of [random.choice] should it be called, and
    [grad_enabled] the gradient mode at the call. *)
Definition act (self : t) (state : list float32) (eps : float64) (u : float64) (c : Z)
    (grad_enabled : bool) : ActResult :=
  if SFltb eps u then
    let state := [state] in
    let self := set_qnetwork_local self (eval (qnetwork_local self)) in
    let no_grad := false in
    let call := forward_call (training (qnetwork_local self)) no_grad state in
    let action_values :=
      forward (parameters (qnetwork_local self)) (training (qnetwork_local self)) state in
    let self := set_qnetwork_local self (train (qnetwork_local self)) in
    act_result self (np_argmax (concat action_values)) [call] grad_enabled
  else
    act_result self (random_choice (range 0 (action_size self)) c) [] grad_enabled.

End WithCollaborators.
End Agent.

(** ** Runs of calls *)

Module Run.
Section WithCollaborators.
Context {E : Env} {T : Torch}.

(** [add] called with the five fields of a transition. *)
Definition add_transition (self : ReplayBuffer.t) (e : Experience ReplayBuffer.Frame rew)
    : ReplayBuffer.t :=
  ReplayBuffer.add self (state e) (action e) (reward e) (next_state e) (done e).

(** [add] called once for each transition of a list, in order. *)
Definition add_all (self : ReplayBuffer.t) (es : list (Experience ReplayBuffer.Frame rew))
    : ReplayBuffer.t :=
  fold_left add_transition es self.

(** [step] called once for each transition of a list, in order, each with
    the outcome of the random source for that call, by a caller that goes on
    after a call that raised; the result is the agent afterwards and what
    each call did about learning. *)
Fixpoint steps (self : Agent.t) (calls : list (Experience ReplayBuffer.Frame rew * list Z))
    : Agent.t * list learning :=
  match calls with
  | [] => (self, [])
  | (e, draw) :: calls' =>
      let '(self', l) :=
        Agent.step self (state e) (action e) (reward e) (next_state e) (done e) draw in
      let '(self'', ls) := steps self' calls' in
      (self'', l :: ls)
  end.

End WithCollaborators.
End Run.

(** ** Reading the memory under the wrap

    [memory[idx % n]] with [n = len(memory)], when it exists. *)
Definition wrapped {A : Type} (mem : list A) (idx : Z) : option A :=
  nth_error mem (Z.to_nat (idx mod len mem)).

(** Whether the transition an index reaches closes an episode. *)
Definition done_at {S R : Type} (mem : list (Experience S R)) (idx : Z) : bool :=
  match wrapped mem idx with
  | Some e => done e
  | None => false
  end.

(** The frame an index contributes to a stack. *)
Definition frame_at {S R : Type} (mem : list (Experience S R)) (idx : Z) (f : S) : Prop :=
  exists e, wrapped mem idx = Some e /\ state e = f.

(** A transition with its [next_state] field replaced. *)
Definition with_next_state {S R : Type} (f : Experience S R -> S) (e : Experience S R)
    : Experience S R :=
  experience (state e) (action e) (reward e) (f e) (done e).

(** The experience that [get_experiences] makes of one index of the store:
    the encoded state of the index, the encoded state of the next index, and
    the action, reward and done flag stored at the index. *)
Definition encoded_as {E : Env} (self : ReplayBuffer.t) (idx : Z)
    (x : Experience (Tensor2 float32) rew) : Prop :=
  exists e s s',
    nth_error (ReplayBuffer.memory self) (Z.to_nat idx) = Some e /\
    ReplayBuffer._encode_state self idx = Ok [s] /\
    ReplayBuffer._encode_state self (idx + 1) = Ok [s'] /\
    x = experience [s] (action e) (reward e) [s'] (done e).

(** The index that [max(1)] gives for a row that is not empty. *)
Definition argmax_row (row : list float32) : Z :=
  match row with
  | [] => 0
  | x :: xs => argmax_scan x 0 1 xs
  end.

(** ** Instances to compute with

    Frames of integer elements with binary64 rewards, and a network whose
    action values are its parameters whatever the input, with an optimizer
    that leaves them as they are. *)

Definition f64_of_Z (z : Z) : float64 := binary_normalize F64.prec F64.emax z 0 false.

Definition uint8_div255 (p : Z) : float32 :=
  F64.to_f32 (SFdiv F64.prec F64.emax (f64_of_Z p) (f64_of_Z 255)).

Definition int_frames : Env :=
  {| px := Z; px_zero := 0; div255 := uint8_div255;
     rew := float64; rew_float := F64.to_f32 |}.

Definition bias_network : Torch :=
  {| forward := fun params _ x => map (fun _ => concat params) x;
     Optimizer := unit;
     Adam := fun _ => tt;
     minimize := fun _ net _ _ _ => Ok (tt, parameters net) |}.

(** Transitions with frames of two elements. *)
Definition transition (v : Z) (d : bool) : Experience (list Z) float64 :=
  experience [v; v + 1] (v mod 3) F64.one [v + 2; v + 3] d.

Definition three_transitions : list (Experience (list Z) float64) :=
  [transition 10 false; transition 20 true; transition 30 false].

Definition buffer_of (buffer_size batch_size frame_history : Z)
    (es : list (Experience (list Z) float64)) : @ReplayBuffer.t int_frames :=
  @ReplayBuffer.mk int_frames 4 buffer_size es batch_size frame_history.

(** [0.5] *)
Definition f64_half : float64 := S754_finite false 4503599627370496 (-53).

(** An agent of two actions whose local network prefers action 1, with the
    local network in training mode or not. *)
Definition agent_of (training : bool) : @Agent.t int_frames bias_network :=
  @Agent.mk int_frames bias_network 2
    (network [[F32.zero; F32.one]] training) (network [[F32.one; F32.zero]] true) tt
    (buffer_of BUFFER_SIZE BATCH_SIZE 4 []) 0.

(** An agent of two actions whose local network prefers action 0, with
    given action values of the target network. *)
Definition agent_with_target (values : list float32) : @Agent.t int_frames bias_network :=
  @Agent.mk int_frames bias_network 2
    (network [[F32.one; F32.zero]] true) (network [values] true) tt
    (buffer_of BUFFER_SIZE BATCH_SIZE 4 []) 0.

(** Thirty-six calls of [step], each with the draw [0 .. 31] at hand. *)
Definition thirty_six_calls : list (Experience (list Z) float64 * list Z) :=
  map (fun i => (transition i (i mod 7 =? 0), range 0 32)) (range 0 36).

(** * Properties *)

Unset Implicit Arguments.

(** ** Lists, ranges and the result type *)

Lemma len_app {A : Type} (xs ys : list A) : len (xs ++ ys) = len xs + len ys.
Proof. unfold len. rewrite length_app. lia. Qed.

Lemma len_nonneg {A : Type} (xs : list A) : 0 <= len xs.
Proof. unfold len. lia. Qed.

Lemma range_length (a b : Z) : length (range a b) = Z.to_nat (b - a).
Proof. unfold range. now rewrite length_map, length_seq. Qed.

Lemma range_empty (a b : Z) : b <= a -> range a b = [].
Proof.
  intros H. unfold range. replace (Z.to_nat (b - a)) with 0%nat by lia. reflexivity.
Qed.

Lemma range_cons (a b : Z) : a < b -> range a b = a :: range (a + 1) b.
Proof.
  intros H. unfold range.
  replace (Z.to_nat (b - a)) with (S (Z.to_nat (b - (a + 1)))) by lia.
  cbn [seq map]. f_equal; [lia|].
  rewrite <- seq_shift, map_map. apply map_ext. intros i. lia.
Qed.

Lemma range_snoc (a b : Z) : a <= b -> range a (b + 1) = range a b ++ [b].
Proof.
  intros H. unfold range.
  replace (Z.to_nat (b + 1 - a)) with (Z.to_nat (b - a) + 1)%nat by lia.
  rewrite seq_app, map_app. cbn [seq map]. do 2 f_equal. lia.
Qed.

Lemma range_app (a b c : Z) : a <= b <= c -> range a c = range a b ++ range b c.
Proof.
  intros H. remember (Z.to_nat (b - a)) as n eqn:Hn.
  revert a H Hn. induction n as [|n IH]; intros a H Hn.
  - assert (a = b) as -> by lia. now rewrite (range_empty b b) by lia.
  - rewrite (range_cons a c), (range_cons a b) by lia.
    cbn [app]. f_equal. apply IH; lia.
Qed.

Lemma in_range (a b i : Z) : In i (range a b) <-> a <= i < b.
Proof.
  unfold range. rewrite in_map_iff. split.
  - intros (k & <- & Hk). apply in_seq in Hk. lia.
  - intros H. exists (Z.to_nat (i - a)). split; [lia|]. apply in_seq. lia.
Qed.

Lemma getitem_nonneg {A : Type} (xs : list A) (i : Z) :
  0 <= i ->
  getitem xs i = match nth_error xs (Z.to_nat i) with
                 | Some x => Ok x
                 | None => Raise IndexError
                 end.
Proof.
  intros H. unfold getitem. cbv zeta.
  destruct (i <? 0) eqn:Hi; [apply Z.ltb_lt in Hi; lia|].
  now rewrite Hi.
Qed.

Lemma getitem_some {A : Type} (xs : list A) (i : Z) (x : A) :
  0 <= i -> nth_error xs (Z.to_nat i) = Some x -> getitem xs i = Ok x.
Proof. intros H Hx. now rewrite getitem_nonneg, Hx. Qed.

(** ** The circular store *)

Section Store.
Context {E : Env}.

Lemma deque_append_suffix {A : Type} (maxlen : Z) (d : list A) (x : A) :
  0 <= maxlen -> len d <= maxlen ->
  len (deque_append maxlen d x) <= maxlen /\
  deque_append maxlen d x
  = skipn (length (d ++ [x]) - Z.to_nat maxlen) (d ++ [x]).
Proof.
  intros H0 Hd. unfold deque_append. cbv zeta.
  pose proof (len_app d [x]) as Hl. change (len [x]) with 1 in Hl.
  destruct (maxlen <? len (d ++ [x])) eqn:Hc.
  - apply Z.ltb_lt in Hc.
    destruct (d ++ [x]) as [|y rest] eqn:Hfull.
    + destruct d; discriminate.
    + cbn [tl]. unfold len in *. cbn [length] in *. split; [lia|].
      replace (S (length rest) - Z.to_nat maxlen)%nat with 1%nat by lia. reflexivity.
  - apply Z.ltb_ge in Hc. split; [exact Hc|].
    unfold len in Hc. replace (length (d ++ [x]) - Z.to_nat maxlen)%nat with 0%nat by lia.
    reflexivity.
Qed.

Lemma skipn_suffix_step {A : Type} (full es : list A) (bs : nat) :
  (length full <= bs + 1)%nat ->
  skipn (length (skipn (length full - bs) full ++ es) - bs)
        (skipn (length full - bs) full ++ es)
  = skipn (length (full ++ es) - bs) (full ++ es).
Proof.
  intros Hbs. destruct (Nat.le_gt_cases (length full) bs) as [Hc|Hc].
  - replace (length full - bs)%nat with 0%nat by lia. reflexivity.
  - replace (length full - bs)%nat with 1%nat by lia.
    destruct full as [|y rest]; [cbn in Hc; lia|].
    cbn [skipn length app] in *. rewrite !length_app.
    replace (length rest + length es - bs)%nat with (length es) by lia.
    replace (S (length rest + length es) - bs)%nat with (S (length es)) by lia.
    reflexivity.
Qed.

Lemma add_transition_fields (self : ReplayBuffer.t) (e : Experience ReplayBuffer.Frame rew) :
  ReplayBuffer.buffer_size (Run.add_transition self e) = ReplayBuffer.buffer_size self /\
  ReplayBuffer.batch_size (Run.add_transition self e) = ReplayBuffer.batch_size self /\
  ReplayBuffer.frame_history (Run.add_transition self e) = ReplayBuffer.frame_history self /\
  ReplayBuffer.memory (Run.add_transition self e)
  = deque_append (ReplayBuffer.buffer_size self) (ReplayBuffer.memory self) e.
Proof. destruct e. repeat split. Qed.

(** Whatever is added, the memory holds the last [buffer_size] transitions
    it was given, oldest first. *)
Lemma add_all_suffix (self : ReplayBuffer.t) (es : list (Experience ReplayBuffer.Frame rew)) :
  0 <= ReplayBuffer.buffer_size self ->
  len (ReplayBuffer.memory self) <= ReplayBuffer.buffer_size self ->
  ReplayBuffer.buffer_size (Run.add_all self es) = ReplayBuffer.buffer_size self /\
  ReplayBuffer.memory (Run.add_all self es)
  = skipn (length (ReplayBuffer.memory self ++ es)
           - Z.to_nat (ReplayBuffer.buffer_size self))
          (ReplayBuffer.memory self ++ es).
Proof.
  revert self. induction es as [|e es IH]; intros self H0 Hd.
  - cbn. split; [reflexivity|]. rewrite app_nil_r.
    unfold len in Hd.
    replace (length (ReplayBuffer.memory self) - Z.to_nat (ReplayBuffer.buffer_size self))%nat
      with 0%nat by lia.
    reflexivity.
  - cbn [Run.add_all fold_left]. fold (Run.add_all (Run.add_transition self e) es).
    destruct (add_transition_fields self e) as (Hb & _ & _ & Hm).
    destruct (deque_append_suffix _ (ReplayBuffer.memory self) e H0 Hd) as [Hle Heq].
    destruct (IH (Run.add_transition self e)) as [IHb IHm].
    + now rewrite Hb.
    + now rewrite Hb, Hm.
    + split; [now rewrite IHb|]. rewrite IHm, Hb, Hm.
      set (bs := Z.to_nat (ReplayBuffer.buffer_size self)) in *.
      set (d := ReplayBuffer.memory self) in *.
      replace (d ++ e :: es) with ((d ++ [e]) ++ es) by now rewrite <- app_assoc.
      rewrite Heq.
      apply skipn_suffix_step.
      subst d bs. unfold len in Hd. rewrite length_app. cbn. lia.
Qed.

(** C3: after [buffer_size + k] insertions with [k > 0] the store holds
    exactly [buffer_size] transitions, the oldest of them the one inserted at
    index [k]; [add] is a total function, and after any insertions whatever
    the store lists, in insertion order, the last [buffer_size] transitions
    inserted. *)
Theorem ring_eviction (action_size buffer_size batch_size frame_history k : Z)
    (buf : ReplayBuffer.t) (es : list (Experience ReplayBuffer.Frame rew)) :
  ReplayBuffer.__init__ action_size buffer_size batch_size frame_history = Ok buf ->
  0 < k ->
  len es = buffer_size + k ->
  ReplayBuffer.__len__ (Run.add_all buf es) = buffer_size /\
  ReplayBuffer.memory (Run.add_all buf es) = skipn (Z.to_nat k) es /\
  (0 < buffer_size ->
   getitem (ReplayBuffer.memory (Run.add_all buf es)) 0 = getitem es k) /\
  (forall es' : list (Experience ReplayBuffer.Frame rew),
     ReplayBuffer.memory (Run.add_all buf es')
     = skipn (length es' - Z.to_nat buffer_size) es').
Proof.
  intros Hinit Hk Hlen. unfold ReplayBuffer.__init__ in Hinit.
  destruct (buffer_size <? 0) eqn:Hb; [discriminate|]. apply Z.ltb_ge in Hb.
  injection Hinit as <-.
  assert (Hall : forall es' : list (Experience ReplayBuffer.Frame rew),
            ReplayBuffer.memory
              (Run.add_all
                 (ReplayBuffer.mk action_size buffer_size [] batch_size frame_history) es')
            = skipn (length es' - Z.to_nat buffer_size) es').
  { intros es'.
    destruct (add_all_suffix
                (ReplayBuffer.mk action_size buffer_size [] batch_size frame_history) es')
      as [_ Hm]; cbn; try lia.
    exact Hm. }
  assert (Hmem : ReplayBuffer.memory
            (Run.add_all (ReplayBuffer.mk action_size buffer_size [] batch_size frame_history) es)
          = skipn (Z.to_nat k) es).
  { rewrite Hall. f_equal. unfold len in Hlen. lia. }
  repeat split.
  - unfold ReplayBuffer.__len__, len. rewrite Hmem, length_skipn. unfold len in Hlen. lia.
  - exact Hmem.
  - intros Hpos. rewrite Hmem, !getitem_nonneg by lia.
    rewrite nth_error_skipn. change (Z.to_nat 0) with 0%nat. now rewrite Nat.add_0_r.
  - exact Hall.
Qed.

End Store.

Lemma ring_eviction_witness :
  ReplayBuffer.memory (Run.add_all (buffer_of 2 1 4 []) three_transitions)
  = [transition 20 true; transition 30 false].
Proof.
  refine (proj1 (proj2 (@ring_eviction int_frames 4 2 1 4 1 (buffer_of 2 1 4 [])
                          three_transitions _ _ _))).
  - reflexivity.
  - lia.
  - reflexivity.
Defined.

(** ** Loops that cannot raise *)

Lemma mapM_ok {A B : Type} (f : A -> py B) (g : A -> B) (xs : list A) :
  (forall x, In x xs -> f x = Ok (g x)) -> mapM f xs = Ok (map g xs).
Proof.
  induction xs as [|x xs IH]; intros H; [reflexivity|].
  cbn [mapM map]. rewrite (H x) by now left. cbn [bind].
  rewrite IH by (intros y Hy; apply H; now right). reflexivity.
Qed.

Lemma mapM_Forall2 {A B : Type} (f : A -> py B) (P : A -> B -> Prop) (xs : list A) :
  (forall x, In x xs -> exists y, f x = Ok y /\ P x y) ->
  exists ys, mapM f xs = Ok ys /\ Forall2 P xs ys.
Proof.
  induction xs as [|x xs IH]; intros H.
  - exists []. split; [reflexivity | constructor].
  - destruct (H x) as (y & Hy & HP); [now left|].
    destruct IH as (ys & Hys & HF); [intros z Hz; apply H; now right|].
    exists (y :: ys). split; [|now constructor].
    cbn [mapM]. rewrite Hy. cbn [bind]. rewrite Hys. reflexivity.
Qed.

Lemma mapM_inv {A B : Type} (f : A -> py B) (xs : list A) (ys : list B) :
  mapM f xs = Ok ys -> Forall2 (fun x y => f x = Ok y) xs ys.
Proof.
  revert ys. induction xs as [|x xs IH]; intros ys H.
  - injection H as <-. constructor.
  - cbn [mapM] in H. destruct (f x) as [y|] eqn:Hy; [|discriminate]. cbn [bind] in H.
    destruct (mapM f xs) as [ys'|] eqn:Hys; [|discriminate]. cbn [bind] in H.
    injection H as <-. constructor; [exact Hy | now apply IH].
Qed.

Lemma foldM_app {A S : Type} (f : S -> A -> py S) (xs ys : list A) (s : S) :
  foldM f (xs ++ ys) s = (s' <- foldM f xs s ;; foldM f ys s').
Proof.
  revert s. induction xs as [|x xs IH]; intros s; [reflexivity|].
  cbn [app foldM]. destruct (f s x); [apply IH | reflexivity].
Qed.

Lemma Forall2_length_eq {A B : Type} (P : A -> B -> Prop) (xs : list A) (ys : list B) :
  Forall2 P xs ys -> length xs = length ys.
Proof. induction 1; cbn; congruence. Qed.

Lemma map_const {A B : Type} (c : B) (xs : list A) :
  map (fun _ => c) xs = repeat c (length xs).
Proof. induction xs as [|x xs IH]; cbn; [reflexivity | now rewrite IH]. Qed.

(** ** Reading under the wrap *)

Lemma wrapped_read {A : Type} (mem : list A) (idx : Z) :
  0 < len mem ->
  exists e, wrapped mem idx = Some e /\
            py_mod idx (len mem) = Ok (idx mod len mem) /\
            getitem mem (idx mod len mem) = Ok e.
Proof.
  intros Hn. unfold wrapped, py_mod.
  pose proof (Z.mod_pos_bound idx (len mem) Hn) as Hm.
  destruct (nth_error mem (Z.to_nat (idx mod len mem))) as [e|] eqn:He.
  - exists e. split; [reflexivity|].
    destruct (len mem =? 0) eqn:H0; [apply Z.eqb_eq in H0; lia|].
    split; [reflexivity|]. now apply getitem_some.
  - apply nth_error_None in He. unfold len in *. lia.
Qed.

Lemma first_read {A : Type} (mem : list A) :
  0 < len mem -> exists e0, nth_error mem 0 = Some e0 /\ getitem mem 0 = Ok e0.
Proof.
  intros Hn. destruct mem as [|e0 mem]; [cbn in Hn; lia|].
  exists e0. split; reflexivity.
Qed.

(** ** The frame-history encoder *)

Section Encoder.
Context {E : Env}.

(** The scan for an episode boundary (lines 163-165) ends with the index
    after the most recent [done] of the scanned range, or else with the
    start it was given. *)
Lemma boundary_scan (mem : list (Experience ReplayBuffer.Frame rew)) (lo hi : Z) :
  0 < len mem -> lo <= hi ->
  exists b,
    foldM (fun start_idx idx =>
             i <- py_mod idx (len mem) ;;
             e <- getitem mem i ;;
             Ok (if done e then idx + 1 else start_idx))
          (range lo hi) lo = Ok b /\
    lo <= b <= hi /\
    (b = lo \/ done_at mem (b - 1) = true) /\
    (forall j, b <= j < hi -> done_at mem j = false).
Proof.
  intros Hn Hle.
  remember (Z.to_nat (hi - lo)) as k eqn:Hk. revert hi Hle Hk.
  induction k as [|k IH]; intros hi Hle Hk.
  - assert (hi = lo) as -> by lia. rewrite range_empty by lia.
    exists lo. split; [reflexivity|]. split; [lia|]. split; [now left|].
    intros j Hj. lia.
  - destruct (IH (hi - 1)) as (b & Hb & Hbd & Hlast & Hnone); try lia.
    assert (Hr : range lo hi = range lo (hi - 1) ++ [hi - 1]).
    { rewrite <- range_snoc by lia. f_equal. lia. }
    rewrite Hr, foldM_app, Hb. cbn [bind foldM].
    destruct (wrapped_read mem (hi - 1) Hn) as (e & He & Hmod & Hget).
    rewrite Hmod. cbn [bind]. rewrite Hget. cbn [bind].
    assert (Hd : done_at mem (hi - 1) = done e) by (unfold done_at; now rewrite He).
    destruct (done e) eqn:Hde.
    + exists (hi - 1 + 1). split; [reflexivity|]. split; [lia|]. split.
      * right. now replace (hi - 1 + 1 - 1) with (hi - 1) by lia.
      * intros j Hj. lia.
    + exists b. split; [reflexivity|]. split; [lia|]. split; [exact Hlast|].
      intros j Hj. destruct (Z.eq_dec j (hi - 1)) as [->|Hne]; [exact Hd|].
      apply Hnone. lia.
Qed.

Lemma zero_frames (mem : list (Experience ReplayBuffer.Frame rew))
    (e0 : Experience ReplayBuffer.Frame rew) (m : Z) :
  getitem mem 0 = Ok e0 ->
  mapM (fun _ : Z => e <- getitem mem 0 ;; Ok (zeros_like px_zero (state e))) (range 0 m)
  = Ok (repeat (zeros_like px_zero (state e0)) (Z.to_nat m)).
Proof.
  intros H0.
  rewrite (mapM_ok _ (fun _ => zeros_like px_zero (state e0)))
    by (intros x _; now rewrite H0).
  f_equal. rewrite map_const, range_length. f_equal. lia.
Qed.

Lemma real_frames (mem : list (Experience ReplayBuffer.Frame rew)) (lo hi : Z) :
  0 < len mem ->
  exists fs,
    mapM (fun idx => i <- py_mod idx (len mem) ;; e <- getitem mem i ;; Ok (state e))
         (range lo hi) = Ok fs /\
    Forall2 (frame_at mem) (range lo hi) fs.
Proof.
  intros Hn. apply mapM_Forall2. intros j _.
  destruct (wrapped_read mem j Hn) as (e & He & Hmod & Hget).
  exists (state e). rewrite Hmod. cbn [bind]. rewrite Hget. cbn [bind].
  split; [reflexivity|]. now exists e.
Qed.

(** What [_encode_state] builds for an index [idx >= 0] of a store that is
    not empty, with a history of at least one frame: the frames of the
    indices [b .. idx], where [b] follows the most recent [done] among the
    [frame_history - 1] indices before [idx] (or is the first of them, or
    index 0), after as many zero frames as it takes to make [frame_history]
    frames. *)
Lemma encode_frames_spec (self : ReplayBuffer.t) (idx : Z) :
  0 < len (ReplayBuffer.memory self) ->
  1 <= ReplayBuffer.frame_history self ->
  0 <= idx ->
  exists b e0 fs,
    nth_error (ReplayBuffer.memory self) 0 = Some e0 /\
    Z.max 0 (idx + 1 - ReplayBuffer.frame_history self) <= b <= idx /\
    (b = Z.max 0 (idx + 1 - ReplayBuffer.frame_history self)
     \/ done_at (ReplayBuffer.memory self) (b - 1) = true) /\
    (forall j, b <= j < idx -> done_at (ReplayBuffer.memory self) j = false) /\
    Forall2 (frame_at (ReplayBuffer.memory self)) (range b (idx + 1)) fs /\
    ReplayBuffer._encode_state_frames self idx
    = Ok (repeat (zeros_like px_zero (state e0))
                 (Z.to_nat (b - (idx + 1 - ReplayBuffer.frame_history self))) ++ fs).
Proof.
  intros Hn HH Hidx. unfold ReplayBuffer._encode_state_frames. cbv zeta.
  set (mem := ReplayBuffer.memory self) in *.
  set (H := ReplayBuffer.frame_history self) in *.
  assert (Hlo : (if idx + 1 - H <? 0 then 0 else idx + 1 - H) = Z.max 0 (idx + 1 - H)).
  { destruct (idx + 1 - H <? 0) eqn:Hc;
      [apply Z.ltb_lt in Hc | apply Z.ltb_ge in Hc]; lia. }
  rewrite Hlo. set (lo := Z.max 0 (idx + 1 - H)) in *.
  replace (idx + 1 - 1) with idx by lia.
  destruct (boundary_scan mem lo idx Hn) as (b & Hb & Hbd & Hlast & Hnone); [lia|].
  destruct (first_read mem Hn) as (e0 & He0 & Hget0).
  destruct (real_frames mem b (idx + 1) Hn) as (fs & Hfs & HF).
  exists b, e0, fs. rewrite Hb. cbn [bind]. rewrite Hfs.
  repeat split; try lia; try assumption.
  destruct ((b <? 0) || (0 <? H - (idx + 1 - b))) eqn:Hc.
  - rewrite (zero_frames mem e0 _ Hget0). cbn [bind]. do 3 f_equal. lia.
  - apply orb_false_iff in Hc. destruct Hc as [_ Hc]. apply Z.ltb_ge in Hc.
    replace (Z.to_nat (b - (idx + 1 - H))) with 0%nat by lia. reflexivity.
Qed.

Lemma encode_state_of_frames (self : ReplayBuffer.t) (idx : Z) (frames : list ReplayBuffer.Frame) :
  ReplayBuffer._encode_state_frames self idx = Ok frames ->
  frames <> [] ->
  ReplayBuffer._encode_state self idx = Ok [map div255 (concat frames)].
Proof.
  intros Hf Hne. unfold ReplayBuffer._encode_state. rewrite Hf. cbn [bind].
  destruct frames; [contradiction | reflexivity].
Qed.


Lemma done_at_nonempty (mem : list (Experience ReplayBuffer.Frame rew)) (j : Z) :
  done_at mem j = true -> 0 < len mem.
Proof.
  unfold done_at, wrapped. destruct mem as [|e mem]; [|unfold len; cbn; lia].
  now rewrite nth_error_nil.
Qed.

(** C2: when a stored transition with [done = True] lies at an index
    [j >= 0] among the [frame_history - 1] indices before [idx], the stack
    that [_encode_state] builds for [idx] holds zero frames, of the shape of
    the frame stored first, for every index of the window up to and
    including the most recent such transition [jmax], and the stored frames
    of the indices after it; and for transitions [A], [B], [C] with only
    [B] done and a history of two, index 2 yields one zero frame and then
    the frame of [C]. *)
Theorem episode_boundary (self : ReplayBuffer.t) (idx j : Z) :
  0 <= idx ->
  0 <= j ->
  idx - ReplayBuffer.frame_history self + 1 <= j <= idx - 1 ->
  done_at (ReplayBuffer.memory self) j = true ->
  (exists jmax e0 fs frames,
     j <= jmax <= idx - 1 /\
     done_at (ReplayBuffer.memory self) jmax = true /\
     (forall j', jmax < j' < idx -> done_at (ReplayBuffer.memory self) j' = false) /\
     nth_error (ReplayBuffer.memory self) 0 = Some e0 /\
     Forall2 (frame_at (ReplayBuffer.memory self)) (range (jmax + 1) (idx + 1)) fs /\
     frames = repeat (zeros_like px_zero (state e0))
                     (Z.to_nat (jmax - (idx - ReplayBuffer.frame_history self))) ++ fs /\
     ReplayBuffer._encode_state_frames self idx = Ok frames /\
     ReplayBuffer._encode_state self idx = Ok [map div255 (concat frames)]) /\
  (forall (a bs k : Z) (sA sB sC nA nB nC : ReplayBuffer.Frame) (aA aB aC : Z)
          (rA rB rC : rew),
     let buf := ReplayBuffer.mk a bs [experience sA aA rA nA false;
                                      experience sB aB rB nB true;
                                      experience sC aC rC nC false] k 2 in
     ReplayBuffer._encode_state_frames buf 2 = Ok [zeros_like px_zero sA; sC] /\
     ReplayBuffer._encode_state buf 2
     = Ok [map div255 (concat [zeros_like px_zero sA; sC])]).
Proof.
  intros Hidx Hj Hwin Hdone. split.
  - pose proof (done_at_nonempty _ _ Hdone) as Hn.
    destruct (encode_frames_spec self idx Hn ltac:(lia) Hidx)
      as (b & e0 & fs & He0 & Hb & Hlast & Hnone & HF & Henc).
    set (H := ReplayBuffer.frame_history self) in *.
    assert (Hjb : j < b).
    { destruct (Z.lt_ge_cases j b) as [Hlt|Hge]; [exact Hlt|].
      rewrite Hnone in Hdone by lia. discriminate. }
    assert (Hbd : done_at (ReplayBuffer.memory self) (b - 1) = true).
    { destruct Hlast as [Heq|Hd]; [lia | exact Hd]. }
    exists (b - 1), e0, fs,
      (repeat (zeros_like px_zero (state e0)) (Z.to_nat (b - 1 - (idx - H))) ++ fs).
    replace (b - 1 + 1) with b by lia.
    replace (b - (idx + 1 - H)) with (b - 1 - (idx - H)) in Henc by lia.
    split; [lia|]. split; [exact Hbd|].
    split; [intros j' Hj'; apply Hnone; lia|].
    split; [exact He0|]. split; [exact HF|]. split; [reflexivity|].
    split; [exact Henc|].
    apply encode_state_of_frames; [exact Henc|].
    intros Hnil. apply app_eq_nil in Hnil. destruct Hnil as [Hrep _].
    apply (f_equal (@length _)) in Hrep. rewrite repeat_length in Hrep. cbn in Hrep. lia.
  - intros. split; reflexivity.
Qed.

End Encoder.


Lemma episode_boundary_witness :
  exists frames,
    ReplayBuffer._encode_state_frames (buffer_of 5 1 3 three_transitions) 2 = Ok frames.
Proof.
  destruct (proj1 (@episode_boundary int_frames (buffer_of 5 1 3 three_transitions) 2 1
                     ltac:(lia) ltac:(lia) ltac:(cbn; lia) ltac:(reflexivity)))
    as (jmax & e0 & fs & frames & _ & _ & _ & _ & _ & _ & Henc & _).
  exists frames. exact Henc.
Defined.

(** ** The stored [next_state] field *)

Lemma mapM_ext {A B : Type} (f g : A -> py B) (xs : list A) :
  (forall x, f x = g x) -> mapM f xs = mapM g xs.
Proof.
  intros H. induction xs as [|x xs IH]; [reflexivity|].
  cbn [mapM]. now rewrite H, IH.
Qed.

Lemma foldM_ext {A S : Type} (f g : S -> A -> py S) (xs : list A) (s : S) :
  (forall s x, f s x = g s x) -> foldM f xs s = foldM g xs s.
Proof.
  intros H. revert s. induction xs as [|x xs IH]; intros s; [reflexivity|].
  cbn [foldM]. rewrite H. destruct (g s x); [apply IH | reflexivity].
Qed.

Lemma len_map {A B : Type} (g : A -> B) (xs : list A) : len (map g xs) = len xs.
Proof. unfold len. now rewrite length_map. Qed.

Lemma getitem_map {A B : Type} (g : A -> B) (xs : list A) (i : Z) :
  getitem (map g xs) i = (e <- getitem xs i ;; Ok (g e)).
Proof.
  unfold getitem. cbv zeta. rewrite len_map.
  destruct ((if i <? 0 then i + len xs else i) <? 0); [reflexivity|].
  rewrite nth_error_map.
  destruct (nth_error xs (Z.to_nat (if i <? 0 then i + len xs else i))); reflexivity.
Qed.

Section NextState.
Context {E : Env}.

Lemma encode_frames_next_state (self : ReplayBuffer.t)
    (f : Experience ReplayBuffer.Frame rew -> ReplayBuffer.Frame) (idx : Z) :
  ReplayBuffer._encode_state_frames
    (ReplayBuffer.set_memory self (map (with_next_state f) (ReplayBuffer.memory self))) idx
  = ReplayBuffer._encode_state_frames self idx.
Proof.
  unfold ReplayBuffer._encode_state_frames. cbv zeta.
  cbn [ReplayBuffer.set_memory ReplayBuffer.memory ReplayBuffer.frame_history].
  rewrite len_map.
  set (mem := ReplayBuffer.memory self).
  assert (Hscan : forall (s j : Z),
            (i <- py_mod j (len mem) ;;
             e <- getitem (map (with_next_state f) mem) i ;;
             Ok (if done e then j + 1 else s))
            = (i <- py_mod j (len mem) ;;
               e <- getitem mem i ;;
               Ok (if done e then j + 1 else s))).
  { intros s j. destruct (py_mod j (len mem)) as [i|]; [|reflexivity]. cbn [bind].
    rewrite getitem_map. destruct (getitem mem i); reflexivity. }
  assert (Hreal : forall j : Z,
            (i <- py_mod j (len mem) ;;
             e <- getitem (map (with_next_state f) mem) i ;; Ok (state e))
            = (i <- py_mod j (len mem) ;; e <- getitem mem i ;; Ok (state e))).
  { intros j. destruct (py_mod j (len mem)) as [i|]; [|reflexivity]. cbn [bind].
    rewrite getitem_map. destruct (getitem mem i); reflexivity. }
  assert (Hzero : forall j : Z,
            (e <- getitem (map (with_next_state f) mem) 0 ;;
             Ok (zeros_like px_zero (state e)))
            = (e <- getitem mem 0 ;; Ok (zeros_like px_zero (state e)))).
  { intros _. rewrite getitem_map. destruct (getitem mem 0); reflexivity. }
  rewrite (foldM_ext _ _ _ _ Hscan).
  destruct (foldM _ _ _) as [b|]; [|reflexivity]. cbn [bind].
  rewrite (mapM_ext _ _ _ Hreal), (mapM_ext _ _ _ Hzero). reflexivity.
Qed.

Lemma encode_state_next_state (self : ReplayBuffer.t)
    (f : Experience ReplayBuffer.Frame rew -> ReplayBuffer.Frame) (idx : Z) :
  ReplayBuffer._encode_state
    (ReplayBuffer.set_memory self (map (with_next_state f) (ReplayBuffer.memory self))) idx
  = ReplayBuffer._encode_state self idx.
Proof. unfold ReplayBuffer._encode_state. now rewrite encode_frames_next_state. Qed.

Lemma get_experiences_next_state (self : ReplayBuffer.t)
    (f : Experience ReplayBuffer.Frame rew -> ReplayBuffer.Frame) (idxs : list Z) :
  ReplayBuffer.get_experiences
    (ReplayBuffer.set_memory self (map (with_next_state f) (ReplayBuffer.memory self))) idxs
  = ReplayBuffer.get_experiences self idxs.
Proof.
  unfold ReplayBuffer.get_experiences. apply mapM_ext. intros idx.
  rewrite !encode_state_next_state.
  destruct (ReplayBuffer._encode_state self idx); [|reflexivity]. cbn [bind].
  destruct (ReplayBuffer._encode_state self (idx + 1)); [|reflexivity]. cbn [bind].
  cbn [ReplayBuffer.set_memory ReplayBuffer.memory]. rewrite getitem_map.
  destruct (getitem (ReplayBuffer.memory self) idx); reflexivity.
Qed.

Lemma sample_next_state (self : ReplayBuffer.t)
    (f : Experience ReplayBuffer.Frame rew -> ReplayBuffer.Frame) (draw : list Z) :
  ReplayBuffer.sample
    (ReplayBuffer.set_memory self (map (with_next_state f) (ReplayBuffer.memory self))) draw
  = ReplayBuffer.sample self draw.
Proof.
  unfold ReplayBuffer.sample.
  cbn [ReplayBuffer.set_memory ReplayBuffer.memory ReplayBuffer.batch_size].
  rewrite len_map.
  destruct (random_sample _ _ _) as [idxs|]; [|reflexivity]. cbn [bind].
  now rewrite get_experiences_next_state.
Qed.

Lemma encode_state_total (self : ReplayBuffer.t) (idx : Z) :
  0 < len (ReplayBuffer.memory self) ->
  1 <= ReplayBuffer.frame_history self ->
  0 <= idx ->
  exists b e0 fs,
    nth_error (ReplayBuffer.memory self) 0 = Some e0 /\
    Z.max 0 (idx + 1 - ReplayBuffer.frame_history self) <= b <= idx /\
    Forall2 (frame_at (ReplayBuffer.memory self)) (range b (idx + 1)) fs /\
    ReplayBuffer._encode_state_frames self idx
    = Ok (repeat (zeros_like px_zero (state e0))
                 (Z.to_nat (b - (idx + 1 - ReplayBuffer.frame_history self))) ++ fs) /\
    ReplayBuffer._encode_state self idx
    = Ok [map div255
            (concat (repeat (zeros_like px_zero (state e0))
                            (Z.to_nat (b - (idx + 1 - ReplayBuffer.frame_history self)))
                     ++ fs))].
Proof.
  intros Hn HH Hidx.
  destruct (encode_frames_spec self idx Hn HH Hidx)
    as (b & e0 & fs & He0 & Hb & _ & _ & HF & Henc).
  exists b, e0, fs. repeat split; try assumption; try lia.
  apply encode_state_of_frames; [exact Henc|].
  intros Hnil. apply app_eq_nil in Hnil. destruct Hnil as [_ Hfs]. subst fs.
  apply Forall2_length_eq in HF. rewrite range_length in HF. cbn in HF. lia.
Qed.

Lemma getitem_in_range {A : Type} (xs : list A) (i : Z) :
  0 <= i < len xs -> exists x, nth_error xs (Z.to_nat i) = Some x /\ getitem xs i = Ok x.
Proof.
  intros Hi. destruct (nth_error xs (Z.to_nat i)) as [x|] eqn:Hx.
  - exists x. split; [reflexivity|]. apply getitem_some; [lia | exact Hx].
  - apply nth_error_None in Hx. unfold len in Hi. lia.
Qed.

(** C10: replacing the stored [next_state] fields by anything at all
    changes nothing in what [_encode_state], [get_experiences] and [sample]
    return. For an index [idx] of the store, the next state of the sampled
    experience is the stack of index [idx + 1], made of zero frames and of
    the stored [state] frames of indices [b .. idx + 1] with
    [b >= idx + 2 - frame_history]; and for the newest index
    [idx = len - 1] the last frame of that stack is the [state] stored at
    position 0, which is where [len % len] lands. *)
Theorem next_state_never_read (self : ReplayBuffer.t) :
  (forall (f : Experience ReplayBuffer.Frame rew -> ReplayBuffer.Frame)
          (idx : Z) (idxs draw : list Z),
     let self' := ReplayBuffer.set_memory self
                    (map (with_next_state f) (ReplayBuffer.memory self)) in
     ReplayBuffer._encode_state self' idx = ReplayBuffer._encode_state self idx /\
     ReplayBuffer.get_experiences self' idxs = ReplayBuffer.get_experiences self idxs /\
     ReplayBuffer.sample self' draw = ReplayBuffer.sample self draw) /\
  (forall idx : Z,
     1 <= ReplayBuffer.frame_history self ->
     0 <= idx < len (ReplayBuffer.memory self) ->
     exists e st b e0 fs frames,
       nth_error (ReplayBuffer.memory self) (Z.to_nat idx) = Some e /\
       ReplayBuffer._encode_state self idx = Ok st /\
       nth_error (ReplayBuffer.memory self) 0 = Some e0 /\
       Z.max 0 (idx + 2 - ReplayBuffer.frame_history self) <= b <= idx + 1 /\
       Forall2 (frame_at (ReplayBuffer.memory self)) (range b (idx + 2)) fs /\
       frames = repeat (zeros_like px_zero (state e0))
                       (Z.to_nat (b - (idx + 2 - ReplayBuffer.frame_history self))) ++ fs /\
       ReplayBuffer._encode_state_frames self (idx + 1) = Ok frames /\
       ReplayBuffer.get_experiences self [idx]
       = Ok [experience st (action e) (reward e) [map div255 (concat frames)] (done e)] /\
       (idx = len (ReplayBuffer.memory self) - 1 ->
        exists front, frames = front ++ [state e0])).
Proof.
  split.
  - intros f idx idxs draw self'. subst self'.
    split; [apply encode_state_next_state|].
    split; [apply get_experiences_next_state | apply sample_next_state].
  - intros idx HH Hidx.
    assert (Hn : 0 < len (ReplayBuffer.memory self)) by lia.
    destruct (getitem_in_range _ idx Hidx) as (e & He & Hget).
    destruct (encode_state_total self idx Hn HH ltac:(lia))
      as (b0 & e0' & fs0 & _ & _ & _ & _ & Hst).
    destruct (encode_state_total self (idx + 1) Hn HH ltac:(lia))
      as (b & e0 & fs & He0 & Hb & HF & Hfr & Hnx).
    replace (idx + 1 + 1) with (idx + 2) in * by lia.
    eexists e, _, b, e0, fs, _.
    split; [exact He|]. split; [exact Hst|]. split; [exact He0|].
    split; [exact Hb|]. split; [exact HF|]. split; [reflexivity|].
    split; [exact Hfr|]. split.
    + unfold ReplayBuffer.get_experiences. cbn [mapM].
      rewrite Hst, Hnx. cbn [bind]. rewrite Hget. reflexivity.
    + intros Hlast.
      assert (Hn1 : len (ReplayBuffer.memory self) = idx + 1) by lia. clear Hlast.
      assert (Hr : range b (idx + 2) = range b (idx + 1) ++ [idx + 1]).
      { rewrite <- range_snoc by lia. f_equal. lia. }
      rewrite Hr in HF. apply Forall2_app_inv_l in HF.
      destruct HF as (fs1 & fs2 & _ & Hlastf & ->).
      inversion Hlastf as [|j f1 js fs3 Hfa Hnil]; subst.
      inversion Hnil; subst.
      destruct Hfa as (e1 & Hw & Hs).
      unfold wrapped in Hw.
      rewrite <- Hn1, Z.mod_same in Hw by lia. change (Z.to_nat 0) with 0%nat in Hw.
      rewrite He0 in Hw. injection Hw as <-. rewrite <- Hs.
      exists (repeat (zeros_like px_zero (state e0))
                (Z.to_nat (b - (idx + 2 - ReplayBuffer.frame_history self))) ++ fs1).
      now rewrite app_assoc.
Qed.

End NextState.

Lemma next_state_never_read_witness :
  exists front,
    ReplayBuffer._encode_state_frames (buffer_of 5 1 2 three_transitions) 3
    = Ok (front ++ [[10; 11]]).
Proof.
  destruct (proj2 (@next_state_never_read int_frames (buffer_of 5 1 2 three_transitions)) 2
              ltac:(cbn; lia) ltac:(cbn; lia))
    as (e & st & b & e0 & fs & frames & _ & _ & He0 & _ & _ & _ & Hfr & _ & Hlast).
  destruct (Hlast eq_refl) as (front & Hfront).
  exists front. change 3 with (2 + 1). rewrite Hfr, Hfront.
  cbn in He0. injection He0 as <-. reflexivity.
Defined.

(** ** The update scheduler *)

Section Scheduler.
Context {E : Env} {T : Torch}.

Lemma deque_append_len {A : Type} (maxlen : Z) (d : list A) (x : A) :
  0 <= maxlen -> len d <= maxlen ->
  len (deque_append maxlen d x) = Z.min (len d + 1) maxlen.
Proof.
  intros H0 Hd. unfold deque_append. cbv zeta.
  pose proof (len_app d [x]) as Hl. change (len [x]) with 1 in Hl.
  destruct (maxlen <? len (d ++ [x])) eqn:Hc;
    [apply Z.ltb_lt in Hc | apply Z.ltb_ge in Hc]; [|lia].
  destruct (d ++ [x]) as [|y rest]; [cbn in Hc; lia|].
  cbn [tl]. unfold len in *. cbn [length] in *. lia.
Qed.

Lemma learn_keeps_schedule (self self' : Agent.t) (experiences : Batch) (gamma : float64) :
  Agent.learn self experiences gamma = Ok self' ->
  Agent.memory self' = Agent.memory self /\ Agent.t_step self' = Agent.t_step self.
Proof.
  unfold Agent.learn. destruct experiences as [[[[states actions] rewards] next_states] dones].
  destruct (Agent.Q_targets _ _ _) as [targets|]; [|discriminate]. cbn [bind].
  destruct (minimize _ _ _ _ _) as [r|]; [|discriminate]. cbn [bind].
  intros H. injection H as <-. split; reflexivity.
Qed.

(** One call of [step]: the transition is recorded, the counter advances
    modulo [UPDATE_EVERY], and learning is entered exactly when the counter
    is back at 0 with more than [BATCH_SIZE] transitions in the store. *)
Lemma step_schedule (self : Agent.t) (e : Experience ReplayBuffer.Frame rew) (draw : list Z) :
  let r := Agent.step self (state e) (action e) (reward e) (next_state e) (done e) draw in
  Agent.memory (fst r) = Run.add_transition (Agent.memory self) e /\
  Agent.t_step (fst r) = (Agent.t_step self + 1) mod UPDATE_EVERY /\
  (snd r <> NoLearning <->
   Agent.t_step (fst r) = 0 /\ BATCH_SIZE < ReplayBuffer.__len__ (Agent.memory (fst r))).
Proof.
  cbv zeta. unfold Agent.step. cbv zeta.
  cbn [Agent.set_memory Agent.set_t_step Agent.memory Agent.t_step].
  fold (Run.add_transition (Agent.memory self) e).
  set (mem' := Run.add_transition (Agent.memory self) e).
  set (t' := (Agent.t_step self + 1) mod UPDATE_EVERY).
  destruct (t' =? 0) eqn:Ht; [apply Z.eqb_eq in Ht | apply Z.eqb_neq in Ht].
  - destruct (BATCH_SIZE <? ReplayBuffer.__len__ mem') eqn:Hb;
      [apply Z.ltb_lt in Hb | apply Z.ltb_ge in Hb].
    + destruct (experiences <- ReplayBuffer.sample mem' draw ;; Agent.learn _ experiences GAMMA)
        as [self'|x] eqn:Hl.
      * destruct (ReplayBuffer.sample mem' draw) as [exps|]; [|discriminate].
        cbn [bind] in Hl. apply learn_keeps_schedule in Hl. destruct Hl as [Hm Hs].
        cbn [fst snd]. rewrite Hm, Hs.
        cbn [Agent.memory Agent.t_step Agent.set_memory Agent.set_t_step].
        split; [reflexivity|]. split; [reflexivity|]. split.
        -- intros _. split; assumption.
        -- intros _. discriminate.
      * cbn [fst snd Agent.memory Agent.t_step Agent.set_memory Agent.set_t_step].
        split; [reflexivity|]. split; [reflexivity|]. split.
        -- intros _. split; assumption.
        -- intros _. discriminate.
    + cbn [fst snd Agent.memory Agent.t_step Agent.set_memory Agent.set_t_step].
      split; [reflexivity|]. split; [reflexivity|]. split.
      * intros Hx. now contradiction Hx.
      * intros [_ Hx]. lia.
  - cbn [fst snd Agent.memory Agent.t_step Agent.set_memory Agent.set_t_step].
    split; [reflexivity|]. split; [reflexivity|]. split.
    + intros Hx. now contradiction Hx.
    + intros [Hx _]. contradiction.
Qed.

Lemma steps_cons (self : Agent.t) (e : Experience ReplayBuffer.Frame rew) (draw : list Z)
    (calls : list (Experience ReplayBuffer.Frame rew * list Z)) :
  let r := Agent.step self (state e) (action e) (reward e) (next_state e) (done e) draw in
  Run.steps self ((e, draw) :: calls)
  = (fst (Run.steps (fst r) calls), snd r :: snd (Run.steps (fst r) calls)).
Proof.
  cbv zeta. cbn [Run.steps].
  destruct (Agent.step _ _ _ _ _ _ _) as [self' l]. cbn [fst snd].
  destruct (Run.steps self' calls) as [self'' ls]. reflexivity.
Qed.

(** A run of calls from a state whose store has capacity [BUFFER_SIZE]. *)
Lemma steps_schedule (calls : list (Experience ReplayBuffer.Frame rew * list Z)) :
  forall self : Agent.t,
  ReplayBuffer.buffer_size (Agent.memory self) = BUFFER_SIZE ->
  ReplayBuffer.__len__ (Agent.memory self) <= BUFFER_SIZE ->
  0 <= Agent.t_step self < UPDATE_EVERY ->
  Agent.t_step (fst (Run.steps self calls)) = (Agent.t_step self + len calls) mod UPDATE_EVERY /\
  ReplayBuffer.__len__ (Agent.memory (fst (Run.steps self calls)))
  = Z.min (ReplayBuffer.__len__ (Agent.memory self) + len calls) BUFFER_SIZE /\
  length (snd (Run.steps self calls)) = length calls /\
  (forall (i : nat) (l : learning),
     nth_error (snd (Run.steps self calls)) i = Some l ->
     l <> NoLearning ->
     (Agent.t_step self + Z.of_nat i + 1) mod UPDATE_EVERY = 0 /\
     BATCH_SIZE < Z.min (ReplayBuffer.__len__ (Agent.memory self) + Z.of_nat i + 1) BUFFER_SIZE).
Proof.
  induction calls as [|[e draw] calls IH]; intros self Hbs Hlen Ht.
  - cbn [Run.steps fst snd]. change (len []) with 0. rewrite !Z.add_0_r.
    split; [now rewrite Z.mod_small|].
    split; [symmetry; apply Z.min_l; exact Hlen|]. split; [reflexivity|].
    intros i l Hi. now destruct i.
  - rewrite steps_cons. cbn [fst snd].
    destruct (step_schedule self e draw) as (Hm & Hs & Hl).
    set (r := Agent.step self (state e) (action e) (reward e) (next_state e) (done e) draw) in *.
    destruct (add_transition_fields (Agent.memory self) e) as (Hb' & _ & _ & Hm').
    assert (Hlen' : ReplayBuffer.__len__ (Agent.memory (fst r))
                    = Z.min (ReplayBuffer.__len__ (Agent.memory self) + 1) BUFFER_SIZE).
    { rewrite Hm. unfold ReplayBuffer.__len__ in *. rewrite Hm', Hbs.
      apply deque_append_len; [unfold BUFFER_SIZE; lia | exact Hlen]. }
    assert (Hu : 0 < UPDATE_EVERY) by reflexivity.
    destruct (IH (fst r)) as (IHt & IHl & IHn & IHi).
    + now rewrite Hm, Hb'.
    + rewrite Hlen'. lia.
    + rewrite Hs. apply Z.mod_pos_bound. exact Hu.
    + assert (Hc : len ((e, draw) :: calls) = len calls + 1) by (unfold len; cbn [length]; lia).
      rewrite Hc. split; [|split; [|split]].
      * rewrite IHt, Hs, Zplus_mod_idemp_l. f_equal. lia.
      * rewrite IHl, Hlen'. pose proof (len_nonneg calls). lia.
      * cbn [length]. now rewrite IHn.
      * intros [|i] l Hi Hne.
        -- cbn [nth_error] in Hi. injection Hi as <-. apply Hl in Hne.
           destruct Hne as [H0 Hb]. rewrite Hs in H0. rewrite Hlen' in Hb.
           change (Z.of_nat 0) with 0. rewrite !Z.add_0_r. split; [exact H0 | exact Hb].
        -- cbn [nth_error] in Hi. destruct (IHi i l Hi Hne) as [H0 Hb].
           rewrite Hs, <- Z.add_assoc, Zplus_mod_idemp_l in H0. rewrite Hlen' in Hb. split.
           ++ rewrite <- H0. f_equal. lia.
           ++ lia.
Qed.

(** C6: the counter starts at 0 and each call of [step] advances it modulo
    [UPDATE_EVERY = 4]; a call enters learning exactly when the counter is
    back at 0 and the store then holds more than [BATCH_SIZE = 32]
    transitions. In every run of calls from the initial state the counter
    after the run is the number of calls modulo 4, and a call that enters
    learning is a multiple-of-four call not before the 36th, so none of the
    first three calls does, and none made while the store holds at most 32
    transitions. *)
Theorem scheduling_gating (action_size frame_history : Z) (local target : QNetwork)
    (agent : Agent.t) (calls : list (Experience ReplayBuffer.Frame rew * list Z)) :
  Agent.__init__ action_size frame_history local target = Ok agent ->
  Agent.t_step agent = 0 /\
  (forall (self : Agent.t) (e : Experience ReplayBuffer.Frame rew) (draw : list Z),
     let r := Agent.step self (state e) (action e) (reward e) (next_state e) (done e) draw in
     Agent.t_step (fst r) = (Agent.t_step self + 1) mod UPDATE_EVERY /\
     (snd r <> NoLearning <->
      Agent.t_step (fst r) = 0 /\
      BATCH_SIZE < ReplayBuffer.__len__ (Agent.memory (fst r)))) /\
  Agent.t_step (fst (Run.steps agent calls)) = len calls mod 4 /\
  (forall (i : nat) (l : learning),
     nth_error (snd (Run.steps agent calls)) i = Some l ->
     l <> NoLearning ->
     (Z.of_nat i + 1) mod 4 = 0 /\ 36 <= Z.of_nat i + 1 /\
     32 < ReplayBuffer.__len__
            (Agent.memory (fst (Run.steps agent (firstn (S i) calls))))).
Proof.
  intros Hinit. unfold Agent.__init__ in Hinit. cbn in Hinit. injection Hinit as <-.
  set (agent := Agent.mk _ _ _ _ _ _).
  assert (Hbs : ReplayBuffer.buffer_size (Agent.memory agent) = BUFFER_SIZE) by reflexivity.
  assert (Hlen : ReplayBuffer.__len__ (Agent.memory agent) = 0) by reflexivity.
  assert (Ht : Agent.t_step agent = 0) by reflexivity.
  split; [exact Ht|]. split.
  { intros self e draw. destruct (step_schedule self e draw) as (_ & Hs & Hl).
    cbv zeta. split; assumption. }
  destruct (steps_schedule calls agent Hbs) as (Hrt & _ & Hn & Hi);
    [rewrite Hlen; unfold BUFFER_SIZE; lia | rewrite Ht; unfold UPDATE_EVERY; lia|].
  rewrite Ht, Z.add_0_l in Hrt. split; [exact Hrt|].
  intros i l Hnth Hne. destruct (Hi i l Hnth Hne) as [H0 Hb].
  rewrite Ht, Hlen in *. rewrite !Z.add_0_l in *.
  unfold UPDATE_EVERY in H0. unfold BATCH_SIZE, BUFFER_SIZE in Hb.
  split; [exact H0|].
  assert (Hmod : Z.of_nat i + 1 = 4 * ((Z.of_nat i + 1) / 4) + (Z.of_nat i + 1) mod 4)
    by apply Z_div_mod_eq_full.
  split; [lia|].
  destruct (steps_schedule (firstn (S i) calls) agent Hbs) as (_ & Hl' & _ & _);
    [rewrite Hlen; unfold BUFFER_SIZE; lia | rewrite Ht; unfold UPDATE_EVERY; lia|].
  rewrite Hl', Hlen, Z.add_0_l.
  assert (Hlt : (i < length calls)%nat).
  { rewrite <- Hn. apply nth_error_Some. now rewrite Hnth. }
  unfold len. rewrite length_firstn. unfold BUFFER_SIZE. lia.
Qed.

End Scheduler.

Lemma scheduling_gating_witness :
  Agent.t_step
    (fst (Run.steps
            (@Agent.mk int_frames bias_network 4 (network [[F32.one; F32.zero]] true)
               (network [[F32.zero; F32.one]] true) tt
               (buffer_of BUFFER_SIZE BATCH_SIZE 4 []) 0)
            [(transition 10 false, []); (transition 20 true, [])]))
  = 2.
Proof.
  refine (proj1 (proj2 (proj2
            (@scheduling_gating int_frames bias_network 4 4
               (network [[F32.one; F32.zero]] true) (network [[F32.zero; F32.one]] true)
               _ [(transition 10 false, []); (transition 20 true, [])] _)))).
  reflexivity.
Defined.

(** ** The sampler *)

Lemma mapM_single {A B : Type} (f : A -> py B) (x : A) (y : B) :
  mapM f [x] = Ok [y] -> f x = Ok y.
Proof.
  cbn [mapM]. destruct (f x) as [y'|]; [|discriminate]. cbn [bind].
  intros H. now injection H as ->.
Qed.

Lemma concat_singletons {A B : Type} (f : A -> list B) (g : A -> B) (ys : list A) :
  (forall y, In y ys -> f y = [g y]) -> concat (map f ys) = map g ys.
Proof.
  induction ys as [|y ys IH]; intros H; [reflexivity|].
  cbn [map concat]. rewrite (H y) by now left.
  rewrite IH by (intros z Hz; apply H; now right). reflexivity.
Qed.

Lemma Forall2_nth_error {A B : Type} (P : A -> B -> Prop) (xs : list A) (ys : list B)
    (i : nat) (x : A) :
  Forall2 P xs ys -> nth_error xs i = Some x ->
  exists y, nth_error ys i = Some y /\ P x y.
Proof.
  intros HF. revert i. induction HF as [|x0 y0 xs ys HP HF IH]; intros i Hi.
  - now destruct i.
  - destruct i as [|i]; cbn [nth_error] in *.
    + injection Hi as <-. now exists y0.
    + now apply IH.
Qed.

Lemma Forall2_In_r {A B : Type} (P : A -> B -> Prop) (xs : list A) (ys : list B) (y : B) :
  Forall2 P xs ys -> In y ys -> exists x, In x xs /\ P x y.
Proof.
  induction 1 as [|x0 y0 xs ys HP HF IH]; intros Hy; [contradiction|].
  destruct Hy as [<-|Hy].
  - exists x0. split; [now left | exact HP].
  - destruct (IH Hy) as (x & Hx & HPx). exists x. split; [now right | exact HPx].
Qed.

Lemma np_vstack_ok {A : Type} (arrays : list (Tensor2 A)) :
  arrays <> [] -> np_vstack arrays = Ok (concat arrays).
Proof. destruct arrays; [contradiction | reflexivity]. Qed.

Section Sampler.
Context {E : Env}.

Lemma get_experiences_spec (self : ReplayBuffer.t) (idxs : list Z) :
  1 <= ReplayBuffer.frame_history self ->
  Forall (fun i => 0 <= i < len (ReplayBuffer.memory self)) idxs ->
  exists xs,
    ReplayBuffer.get_experiences self idxs = Ok xs /\
    Forall2 (encoded_as self) idxs xs.
Proof.
  intros HH Hall. unfold ReplayBuffer.get_experiences.
  apply mapM_Forall2. intros idx Hin.
  rewrite Forall_forall in Hall. specialize (Hall idx Hin).
  assert (Hn : 0 < len (ReplayBuffer.memory self)) by lia.
  destruct (getitem_in_range _ idx Hall) as (e & He & Hget).
  destruct (encode_state_total self idx Hn HH ltac:(lia)) as (b0 & e0 & fs0 & _ & _ & _ & _ & Hst).
  destruct (encode_state_total self (idx + 1) Hn HH ltac:(lia))
    as (b1 & e1 & fs1 & _ & _ & _ & _ & Hnx).
  eexists. rewrite Hst, Hnx. cbn [bind]. rewrite Hget. cbn [bind].
  split; [reflexivity|].
  exists e. eexists. eexists. split; [exact He|]. split; [exact Hst|].
  split; [exact Hnx | reflexivity].
Qed.


End Sampler.


(** ** The policy selector *)

Lemma compare_cont_Lt_Gt (p q : positive) :
  Pos.compare_cont Eq p q = Lt -> Pos.compare_cont Eq q p = Gt.
Proof.
  intros H. change (Pos.compare_cont Eq q p) with (Pos.compare q p).
  change (Pos.compare_cont Eq p q) with (Pos.compare p q) in H.
  rewrite Pos.compare_antisym, H. reflexivity.
Qed.

Lemma compare_cont_Gt_Lt (p q : positive) :
  Pos.compare_cont Eq p q = Gt -> Pos.compare_cont Eq q p = Lt.
Proof.
  intros H. change (Pos.compare_cont Eq q p) with (Pos.compare q p).
  change (Pos.compare_cont Eq p q) with (Pos.compare p q) in H.
  rewrite Pos.compare_antisym, H. reflexivity.
Qed.

(** [x < y] excludes [y < x]. *)
Lemma SFltb_asym (x y : spec_float) : SFltb x y = true -> SFltb y x = false.
Proof.
  unfold SFltb.
  destruct x as [sx|sx| |sx mx ex], y as [sy|sy| |sy my ey]; cbn;
    try destruct sx; try destruct sy; try (intros; reflexivity); try discriminate.
  - rewrite (Z.compare_antisym ex ey). destruct (ex ?= ey); cbn; try discriminate;
      try (intros; reflexivity).
    destruct (Pos.compare_cont Eq mx my) eqn:Hc; cbn; try discriminate.
    intros _. now rewrite (compare_cont_Gt_Lt _ _ Hc).
  - rewrite (Z.compare_antisym ex ey). destruct (ex ?= ey); cbn; try discriminate;
      try (intros; reflexivity).
    destruct (Pos.compare_cont Eq mx my) eqn:Hc; cbn; try discriminate.
    intros _. now rewrite (compare_cont_Lt_Gt _ _ Hc).
Qed.

(** An outcome of [random.random()] other than zero is above zero. *)
Lemma random_outcome_positive (u : float64) :
  random_outcome u -> u <> F64.zero -> SFltb F64.zero u = true.
Proof.
  intros (_ & Hneg & Hle & Hlt) Hnz. destruct u as [s|s| |s m e].
  - destruct s; [now contradiction Hneg | now contradiction Hnz].
  - destruct s; discriminate.
  - discriminate.
  - destruct s; [discriminate | reflexivity].
Qed.

Section Policy.
Context {E : Env} {T : Torch}.

Lemma act_greedy (self : Agent.t) (state : list float32) (eps u : float64) (c : Z) (g : bool) :
  SFltb eps u = true ->
  Agent.act self state eps u c g
  = Agent.act_result
      (Agent.set_qnetwork_local self (train (Agent.qnetwork_local self)))
      (np_argmax (concat (forward (parameters (Agent.qnetwork_local self)) false [state])))
      [forward_call false false [state]] g.
Proof. intros H. unfold Agent.act. rewrite H. reflexivity. Qed.

Lemma act_random (self : Agent.t) (state : list float32) (eps u : float64) (c : Z) (g : bool) :
  SFltb eps u = false ->
  Agent.act self state eps u c g
  = Agent.act_result self (random_choice (range 0 (Agent.action_size self)) c) [] g.
Proof. intros H. unfold Agent.act. rewrite H. reflexivity. Qed.

Lemma random_choice_arange (n c : Z) : 0 <= c < n -> random_choice (range 0 n) c = Ok c.
Proof.
  intros Hc. unfold random_choice.
  destruct (range 0 n) as [|x xs] eqn:Hr.
  - apply (f_equal (@length Z)) in Hr. rewrite range_length in Hr. cbn in Hr. lia.
  - rewrite <- Hr. apply getitem_some; [lia|].
    unfold range. rewrite nth_error_map.
    rewrite (nth_error_nth' _ 0%nat) by (rewrite length_seq; lia).
    rewrite seq_nth by lia. cbn [option_map]. f_equal. lia.
Qed.

(** C8: [random.random()] can return 0.0, and then [act] with [eps = 0]
    finds [0.0 > 0.0] false, takes the random branch and returns what
    [random.choice] picked without evaluating the network: for the agent
    [agent_of true], whose greedy action is 1, it returns action 0. For
    every other outcome of [random.random()], [eps = 0] gives the greedy
    action [np.argmax] of the local network's values; and [eps = 1] gives,
    for every outcome, the random branch, which returns the position
    [random.choice] picked in [[0, action_size)]. *)
Theorem act_epsilon_bounds :
  (random_outcome F64.zero /\
   (forall (self : Agent.t) (state : list float32) (c : Z) (g : bool),
      Agent.act self state F64.zero F64.zero c g
      = Agent.act_result self (random_choice (range 0 (Agent.action_size self)) c) [] g) /\
   Agent.act_return (Agent.act (agent_of true) [] F64.zero F64.zero 0 true) = Ok 0 /\
   np_argmax (concat (@forward bias_network
                        (parameters (Agent.qnetwork_local (agent_of true))) false [[]]))
   = Ok 1) /\
  (forall (self : Agent.t) (state : list float32) (u : float64) (c : Z) (g : bool),
     random_outcome u -> u <> F64.zero ->
     Agent.act_return (Agent.act self state F64.zero u c g)
     = np_argmax (concat (forward (parameters (Agent.qnetwork_local self)) false [state]))) /\
  (forall (self : Agent.t) (state : list float32) (u : float64) (c : Z) (g : bool),
     random_outcome u ->
     Agent.act self state F64.one u c g
     = Agent.act_result self (random_choice (range 0 (Agent.action_size self)) c) [] g /\
     (0 <= c < Agent.action_size self ->
      Agent.act_return (Agent.act self state F64.one u c g) = Ok c)).
Proof.
  split; [|split].
  - split; [repeat split; discriminate|]. split; [|split; reflexivity].
    intros self state c g. now apply act_random.
  - intros self state u c g Hu Hnz.
    rewrite act_greedy by now apply random_outcome_positive. reflexivity.
  - intros self state u c g (_ & _ & _ & Hlt).
    rewrite act_random by now apply SFltb_asym.
    split; [reflexivity|]. intros Hc. cbn [Agent.act_return].
    now apply random_choice_arange.
Qed.

(** C9 as it holds: a call of [act] that takes the greedy branch leaves the
    local network in training mode, which is the mode it had before the call
    whenever it was in training mode before; the one forward evaluation runs
    in evaluation mode with gradient tracking off, the gradient mode of the
    caller is back afterwards, and no parameter, nor anything else of the
    agent, changes. *)
Theorem act_training_mode (self : Agent.t) (state : list float32) (eps u : float64)
    (c : Z) (g : bool) :
  SFltb eps u = true ->
  let r := Agent.act self state eps u c g in
  training (Agent.qnetwork_local (Agent.act_self r)) = true /\
  (training (Agent.qnetwork_local self) = true ->
   training (Agent.qnetwork_local (Agent.act_self r))
   = training (Agent.qnetwork_local self)) /\
  Agent.act_calls r = [forward_call false false [state]] /\
  Agent.act_grad r = g /\
  parameters (Agent.qnetwork_local (Agent.act_self r))
  = parameters (Agent.qnetwork_local self) /\
  Agent.qnetwork_target (Agent.act_self r) = Agent.qnetwork_target self /\
  Agent.optimizer (Agent.act_self r) = Agent.optimizer self /\
  Agent.memory (Agent.act_self r) = Agent.memory self /\
  Agent.t_step (Agent.act_self r) = Agent.t_step self.
Proof.
  intros Hgreedy r. subst r. rewrite act_greedy by exact Hgreedy.
  cbn [Agent.act_self Agent.act_calls Agent.act_grad Agent.set_qnetwork_local
       Agent.qnetwork_local Agent.qnetwork_target Agent.optimizer Agent.memory
       Agent.t_step train training parameters].
  repeat split. intros H. now rewrite H.
Qed.

End Policy.

(** C9 as stated fails: a local network in evaluation mode before a greedy
    call of [act] is in training mode after it. *)
Lemma act_training_flag_not_restored :
  SFltb F64.zero f64_half = true /\
  training (Agent.qnetwork_local (agent_of false)) = false /\
  training (Agent.qnetwork_local
              (Agent.act_self (Agent.act (agent_of false) [] F64.zero f64_half 0 true)))
  <> training (Agent.qnetwork_local (agent_of false)).
Proof. repeat split. discriminate. Qed.

Lemma act_training_mode_witness :
  training (Agent.qnetwork_local
              (Agent.act_self (Agent.act (agent_of true) [] F64.zero f64_half 0 true)))
  = training (Agent.qnetwork_local (agent_of true)).
Proof.
  refine (proj1 (proj2 (@act_training_mode int_frames bias_network (agent_of true) []
                          F64.zero f64_half 0 true _)) _); reflexivity.
Defined.

(** ** Binary32 arithmetic *)

Lemma to_f32_one : F64.to_f32 F64.one = F32.one.
Proof. reflexivity. Qed.

Lemma to_f32_zero : F64.to_f32 F64.zero = F32.zero.
Proof. reflexivity. Qed.

Lemma f64_one_minus_one : F64.sub F64.one F64.one = F64.zero.
Proof. reflexivity. Qed.

Lemma f64_one_minus_zero : F64.sub F64.one F64.zero = F64.one.
Proof. reflexivity. Qed.

Lemma f32_one_minus_one : F32.sub F32.one F32.one = F32.zero.
Proof. reflexivity. Qed.

Lemma f32_one_minus_zero : F32.sub F32.one F32.zero = F32.one.
Proof. reflexivity. Qed.

Lemma shr_23 (m : positive) (e : Z) :
  shr (shr_record_of_loc (Z.pos (8388608 * m)) loc_Exact) e 23
  = (Build_shr_record (Z.pos m) false false, e + 23).
Proof. reflexivity. Qed.

Lemma digits2_pos_shift (m : positive) :
  Z.pos (digits2_pos (8388608 * m)) = Z.pos (digits2_pos m) + 23.
Proof. cbn. lia. Qed.

(** [1.0 * x] is [x]: the product of the mantissas is the mantissa of [x]
    shifted by 23 bits, which rounding shifts back without loss. *)
Lemma f32_mul_one_l (x : float32) : F32.valid x = true -> F32.mul F32.one x = x.
Proof.
  destruct x as [s|s| |s m e]; try reflexivity.
  unfold F32.valid, valid_binary, bounded, canonical_mantissa. intros Hb.
  apply andb_true_iff in Hb. destruct Hb as [Hc He]. apply Z.eqb_eq in Hc.
  unfold F32.mul, F32.one, SFmul. cbn [xorb].
  unfold binary_round_aux. unfold shr_fexp at 1. unfold Zdigits2.
  rewrite digits2_pos_shift.
  replace (Z.pos (digits2_pos m) + 23 + (-23 + e)) with (Z.pos (digits2_pos m) + e) by lia.
  rewrite Hc. replace (e - (-23 + e)) with 23 by lia.
  rewrite shr_23. cbn [shr_m loc_of_shr_record round_nearest_even].
  replace (-23 + e + 23) with e by lia.
  unfold shr_fexp, Zdigits2. rewrite Hc, Z.sub_diag. cbn [shr shr_record_of_loc shr_m].
  now rewrite He.
Qed.

Lemma f32_mul_zero_l (x : float32) :
  F32.finite x = true -> exists s, F32.mul F32.zero x = S754_zero s.
Proof. destruct x as [s|s| |s m e]; try discriminate; intros _; now eexists. Qed.

Lemma f32_mul_zero_r (x : float32) :
  F32.finite x = true -> exists s, F32.mul x F32.zero = S754_zero s.
Proof. destruct x as [s|s| |s m e]; try discriminate; intros _; now eexists. Qed.

Lemma f32_add_zero_r (x : float32) (s : bool) : F32.same (F32.add x (S754_zero s)) x.
Proof.
  destruct x as [sx|sx| |sx mx ex]; try (left; reflexivity).
  right. destruct sx, s; cbn; eauto.
Qed.

Lemma f32_add_zero_l (x : float32) (s : bool) : F32.same (F32.add (S754_zero s) x) x.
Proof.
  destruct x as [sx|sx| |sx mx ex]; try (left; reflexivity).
  right. destruct sx, s; cbn; eauto.
Qed.

(** ** The soft update *)

Lemma Forall2_zip_with_r {A B C : Type} (R : A -> B -> Prop) (P : C -> B -> Prop)
    (f : A -> B -> C) (xs : list A) (ys : list B) :
  Forall2 R xs ys -> (forall x y, R x y -> P (f x y) y) ->
  Forall2 P (zip_with f xs ys) ys.
Proof.
  intros HF HP. induction HF as [|x y xs ys HR HF IH]; [constructor|].
  unfold zip_with. cbn [combine map fst snd]. constructor; [now apply HP | exact IH].
Qed.

Lemma Forall2_zip_with_l {A B C : Type} (R : A -> B -> Prop) (P : C -> A -> Prop)
    (f : A -> B -> C) (xs : list A) (ys : list B) :
  Forall2 R xs ys -> (forall x y, R x y -> P (f x y) x) ->
  Forall2 P (zip_with f xs ys) xs.
Proof.
  intros HF HP. induction HF as [|x y xs ys HR HF IH]; [constructor|].
  unfold zip_with. cbn [combine map fst snd]. constructor; [now apply HP | exact IH].
Qed.

Lemma Forall2_strengthen {A B : Type} (R : A -> B -> Prop) (P : A -> Prop) (Q : B -> Prop)
    (xs : list A) (ys : list B) :
  Forall2 R xs ys -> Forall P xs -> Forall Q ys ->
  Forall2 (fun x y => R x y /\ P x /\ Q y) xs ys.
Proof.
  intros HF. induction HF as [|x y xs ys HR HF IH]; intros HP HQ; [constructor|].
  inversion HP; subst. inversion HQ; subst. constructor; [now repeat split | now apply IH].
Qed.

Lemma Forall2_of_length {A B : Type} (xs : list A) (ys : list B) :
  length xs = length ys -> Forall2 (fun _ _ => True) xs ys.
Proof.
  revert ys. induction xs as [|x xs IH]; intros [|y ys] H; try discriminate; constructor.
  - exact I.
  - apply IH. now injection H.
Qed.

Lemma nth_error_zip_with {A B C : Type} (f : A -> B -> C) (xs : list A) (ys : list B)
    (i : nat) (x : A) (y : B) :
  nth_error xs i = Some x -> nth_error ys i = Some y ->
  nth_error (zip_with f xs ys) i = Some (f x y).
Proof.
  revert ys i. induction xs as [|x0 xs IH]; intros ys i Hx Hy; [now destruct i|].
  destruct ys as [|y0 ys]; [now destruct i|].
  destruct i as [|i]; cbn [nth_error] in *.
  - injection Hx as <-. injection Hy as <-. reflexivity.
  - unfold zip_with. cbn [combine map nth_error]. now apply IH.
Qed.

Lemma skipn_same_length {A B : Type} (xs : list A) (ys : list B) :
  length xs = length ys -> skipn (length ys) xs = [].
Proof. intros H. rewrite <- H. apply skipn_all. Qed.

(** With [tau = 1] an element becomes [1*l + 0*t], with [tau = 0]
    [0*l + 1*t]. *)
Lemma blend_tau_one (t l : float32) :
  F32.finite t = true -> F32.valid l = true ->
  F32.same (F32.add (F32.mul (F64.to_f32 F64.one) l)
                    (F32.mul (F64.to_f32 (F64.sub F64.one F64.one)) t)) l.
Proof.
  intros Ht Hl. rewrite f64_one_minus_one, to_f32_one, to_f32_zero.
  rewrite (f32_mul_one_l l Hl). destruct (f32_mul_zero_l t Ht) as [s ->].
  apply f32_add_zero_r.
Qed.

Lemma blend_tau_zero (t l : float32) :
  F32.valid t = true -> F32.finite l = true ->
  F32.same (F32.add (F32.mul (F64.to_f32 F64.zero) l)
                    (F32.mul (F64.to_f32 (F64.sub F64.one F64.zero)) t)) t.
Proof.
  intros Ht Hl. rewrite f64_one_minus_zero, to_f32_one, to_f32_zero.
  rewrite (f32_mul_one_l t Ht). destruct (f32_mul_zero_l l Hl) as [s ->].
  apply f32_add_zero_l.
Qed.

(** C5 as it holds: [soft_update] sets every element [t] of every target
    parameter to [tau*l + (1 - tau)*t] in binary32 arithmetic, [l] being the
    element of the local parameter at the same place. For networks of the
    same shape holding binary32 numbers, after [tau = 1] every target
    element is the local element provided the target elements were finite,
    and after [tau = 0] every target element is what it was provided the
    local elements are finite (a zero may come out with the other sign). *)
Theorem polyak_soft_update (local_model target_model : QNetwork) (tau : float64) :
  Forall2 (fun tp lp => length tp = length lp)
          (parameters target_model) (parameters local_model) ->
  Forall (Forall (fun l => F32.valid l = true)) (parameters local_model) ->
  Forall (Forall (fun t => F32.valid t = true)) (parameters target_model) ->
  training (Agent.soft_update local_model target_model tau) = training target_model /\
  (forall (i j : nat) (tp lp : list float32) (t l : float32),
     nth_error (parameters target_model) i = Some tp ->
     nth_error (parameters local_model) i = Some lp ->
     nth_error tp j = Some t ->
     nth_error lp j = Some l ->
     exists tp',
       nth_error (parameters (Agent.soft_update local_model target_model tau)) i = Some tp' /\
       nth_error tp' j
       = Some (F32.add (F32.mul (F64.to_f32 tau) l)
                       (F32.mul (F64.to_f32 (F64.sub F64.one tau)) t))) /\
  (Forall (Forall (fun t => F32.finite t = true)) (parameters target_model) ->
   Forall2 (Forall2 F32.same)
           (parameters (Agent.soft_update local_model target_model F64.one))
           (parameters local_model)) /\
  (Forall (Forall (fun l => F32.finite l = true)) (parameters local_model) ->
   Forall2 (Forall2 F32.same)
           (parameters (Agent.soft_update local_model target_model F64.zero))
           (parameters target_model)).
Proof.
  intros Hshape Hvl Hvt. split; [reflexivity|].
  assert (Hskip : skipn (length (parameters local_model)) (parameters target_model) = []).
  { apply skipn_same_length. exact (Forall2_length_eq _ _ _ Hshape). }
  split; [|split].
  - intros i j tp lp t l Htp Hlp Ht Hl. unfold Agent.soft_update. cbn [parameters].
    exists (zip_with (fun t l => F32.add (F32.mul (F64.to_f32 tau) l)
                                         (F32.mul (F64.to_f32 (F64.sub F64.one tau)) t))
                     tp lp).
    split.
    + rewrite nth_error_app1.
      * exact (nth_error_zip_with _ _ _ _ _ _ Htp Hlp).
      * unfold zip_with. rewrite length_map, length_combine.
        assert (i < length (parameters target_model))%nat
          by (apply nth_error_Some; now rewrite Htp).
        assert (i < length (parameters local_model))%nat
          by (apply nth_error_Some; now rewrite Hlp).
        lia.
    + exact (nth_error_zip_with _ _ _ _ _ _ Ht Hl).
  - intros Hfin. unfold Agent.soft_update. cbn [parameters]. rewrite Hskip, app_nil_r.
    apply (Forall2_zip_with_r _ _ _ _ _ (Forall2_strengthen _ _ _ _ _ Hshape Hfin Hvl)).
    intros tp lp (Hlen & Hft & Hvlp).
    apply (Forall2_zip_with_r _ _ _ _ _
             (Forall2_strengthen _ _ _ _ _ (Forall2_of_length _ _ Hlen) Hft Hvlp)).
    intros t l (_ & Ht & Hl). now apply blend_tau_one.
  - intros Hfin. unfold Agent.soft_update. cbn [parameters]. rewrite Hskip, app_nil_r.
    apply (Forall2_zip_with_l _ _ _ _ _ (Forall2_strengthen _ _ _ _ _ Hshape Hvt Hfin)).
    intros tp lp (Hlen & Hvtp & Hfl).
    apply (Forall2_zip_with_l _ _ _ _ _
             (Forall2_strengthen _ _ _ _ _ (Forall2_of_length _ _ Hlen) Hvtp Hfl)).
    intros t l (_ & Ht & Hl). now apply blend_tau_zero.
Qed.

(** C5 as stated fails: with [tau = 1] and an infinite target parameter the
    new target parameter is a NaN, not the local parameter; with [tau = 0]
    and an infinite local parameter the target parameter changes to a
    NaN. *)
Lemma soft_update_not_a_copy :
  parameters (Agent.soft_update (network [[F32.one]] true) (network [[F32.inf]] true) F64.one)
  = [[F32.nan]] /\
  parameters (Agent.soft_update (network [[F32.inf]] true) (network [[F32.one]] true) F64.zero)
  = [[F32.nan]] /\
  ~ F32.same F32.nan F32.one.
Proof.
  split; [reflexivity|]. split; [reflexivity|].
  intros [H|(s & s' & H & _)]; discriminate H.
Qed.

Lemma polyak_soft_update_witness :
  Forall2 (Forall2 F32.same)
    (parameters (Agent.soft_update (network [[F32.one; F32.zero]] true)
                   (network [[F32.zero; F32.one]] true) F64.one))
    [[F32.one; F32.zero]].
Proof.
  refine (proj1 (proj2 (proj2
            (polyak_soft_update (network [[F32.one; F32.zero]] true)
               (network [[F32.zero; F32.one]] true) F64.one _ _ _))) _);
    repeat constructor.
Defined.

(** ** The Double DQN target *)

Lemma argmax_scan_bounds (xs : list float32) :
  forall (best : float32) (besti i : Z),
  0 <= besti < i -> 0 <= argmax_scan best besti i xs < i + len xs.
Proof.
  induction xs as [|x xs IH]; intros best besti i Hb; cbn [argmax_scan].
  - unfold len. cbn. lia.
  - assert (Hl : len (x :: xs) = len xs + 1) by (unfold len; cbn [length]; lia).
    pose proof (len_nonneg xs) as Hn. rewrite Hl.
    destruct (is_nan best); [lia|].
    destruct (SFleb x best).
    + specialize (IH best besti (i + 1) ltac:(lia)). lia.
    + specialize (IH x i (i + 1) ltac:(lia)). lia.
Qed.

Lemma argmax_row_bounds (row : list float32) :
  row <> [] -> 0 <= argmax_row row < len row.
Proof.
  destruct row as [|x xs]; [contradiction|]. intros _. unfold argmax_row.
  pose proof (argmax_scan_bounds xs x 0 1 ltac:(lia)) as H.
  unfold len in *. cbn [length]. lia.
Qed.

Lemma torch_argmax_rows (t : Tensor2 float32) :
  Forall (fun row => row <> []) t ->
  torch_argmax_1 t = Ok (map (fun row => [argmax_row row]) t).
Proof.
  intros H. unfold torch_argmax_1. apply mapM_ok. intros row Hin.
  rewrite Forall_forall in H. specialize (H row Hin).
  destruct row; [contradiction | reflexivity].
Qed.

Lemma gather_rows {A : Type} (input : Tensor2 A) (rows : Tensor2 float32) :
  Forall2 (fun ql qt => ql <> [] /\ length ql = length qt) rows input ->
  exists qs,
    gather_1 input (map (fun row => [argmax_row row]) rows) = Ok (map (fun q => [q]) qs) /\
    length qs = length rows /\
    (forall (i : nat) (ql : list float32) (qt : list A),
       nth_error rows i = Some ql -> nth_error input i = Some qt ->
       exists q, nth_error qs i = Some q /\
                 nth_error qt (Z.to_nat (argmax_row ql)) = Some q).
Proof.
  induction 1 as [|ql qt rows input [Hne Hlen] HF IH].
  - exists []. split; [reflexivity|]. split; [reflexivity|]. intros i ql qt Hi. now destruct i.
  - destruct IH as (qs & Hg & Hl & Hq).
    pose proof (argmax_row_bounds ql Hne) as Hb.
    destruct (nth_error qt (Z.to_nat (argmax_row ql))) as [q|] eqn:Hnth.
    + exists (q :: qs). split; [|split].
      * cbn [map gather_1 mapM].
        replace (argmax_row ql <? 0) with false by (symmetry; apply Z.ltb_ge; lia).
        rewrite Hnth. cbn [bind]. rewrite Hg. reflexivity.
      * cbn [length]. now rewrite Hl.
      * intros [|i] ql' qt' Hi Hi'; cbn [nth_error] in *.
        -- injection Hi as <-. injection Hi' as <-. now exists q.
        -- now apply Hq.
    + apply nth_error_None in Hnth. unfold len in Hb. lia.
Qed.

Lemma tensor_op_columns {A B C : Type} (g : A -> B -> C) (xs : list A) (ys : list B) :
  length xs = length ys ->
  tensor_op g (map (fun x => [x]) xs) (map (fun y => [y]) ys)
  = Ok (map (fun z => [z]) (zip_with g xs ys)).
Proof.
  intros Hlen. unfold tensor_op, broadcast at 1.
  rewrite !length_map, Hlen, Nat.eqb_refl. clear Hlen.
  unfold zip_with. revert ys. induction xs as [|x xs IH]; intros ys; [reflexivity|].
  destruct ys as [|y ys]; [reflexivity|].
  cbn [map combine mapM fst snd]. rewrite IH. reflexivity.
Qed.

(** The comparison [<=] of IEEE numbers is a total preorder away from NaN. *)
Ltac order_cases :=
  repeat match goal with
         | |- context [Z.compare ?a ?b] => destruct (Z.compare_spec a b)
         | H : context [Z.compare ?a ?b] |- _ => destruct (Z.compare_spec a b)
         | |- context [Pos.compare_cont Eq ?a ?b] =>
             change (Pos.compare_cont Eq a b) with (Pos.compare a b);
             destruct (Pos.compare_spec a b)
         | H : context [Pos.compare_cont Eq ?a ?b] |- _ =>
             change (Pos.compare_cont Eq a b) with (Pos.compare a b) in H;
             destruct (Pos.compare_spec a b)
         end.

Lemma SFleb_total (x y : spec_float) :
  is_nan x = false -> is_nan y = false -> SFleb x y = false -> SFleb y x = true.
Proof.
  unfold SFleb.
  destruct x as [sx|sx| |sx mx ex], y as [sy|sy| |sy my ey]; cbn;
    try discriminate; intros _ _; try destruct sx; try destruct sy;
    try discriminate; try reflexivity;
    order_cases; cbn; try discriminate; try reflexivity; try lia.
Qed.

Lemma SFleb_refl (x : spec_float) : is_nan x = false -> SFleb x x = true.
Proof.
  intros Hx. destruct (SFleb x x) eqn:H; [reflexivity|].
  now rewrite (SFleb_total x x Hx Hx H) in H.
Qed.

Lemma SFleb_trans (x y z : spec_float) :
  SFleb x y = true -> SFleb y z = true -> SFleb x z = true.
Proof.
  unfold SFleb.
  destruct x as [sx|sx| |sx mx ex], y as [sy|sy| |sy my ey], z as [sz|sz| |sz mz ez]; cbn;
    try discriminate; try destruct sx; try destruct sy; try destruct sz;
    try discriminate; try reflexivity;
    order_cases; cbn; try discriminate; try reflexivity; try lia.
Qed.

(** Away from NaN the scan ends at the index of a maximal element. *)
Lemma argmax_scan_max (xs : list float32) :
  forall (best : float32) (besti i : Z),
  is_nan best = false ->
  Forall (fun x => is_nan x = false) xs ->
  exists m,
    is_nan m = false /\
    SFleb best m = true /\
    Forall (fun x => SFleb x m = true) xs /\
    ((argmax_scan best besti i xs = besti /\ m = best)
     \/ (i <= argmax_scan best besti i xs /\
         nth_error xs (Z.to_nat (argmax_scan best besti i xs - i)) = Some m)).
Proof.
  induction xs as [|x xs IH]; intros best besti i Hb Hxs; cbn [argmax_scan].
  - exists best. split; [exact Hb|]. split; [now apply SFleb_refl|].
    split; [constructor|]. now left.
  - inversion Hxs as [|x' xs' Hx Hxs']; subst. rewrite Hb.
    destruct (SFleb x best) eqn:Hle.
    + destruct (IH best besti (i + 1) Hb Hxs') as (m & Hm & Hbm & Hall & Hres).
      exists m. split; [exact Hm|]. split; [exact Hbm|].
      split; [constructor; [exact (SFleb_trans _ _ _ Hle Hbm) | exact Hall]|].
      destruct Hres as [Hres|[Hge Hnth]]; [now left|]. right. split; [lia|].
      replace (Z.to_nat (argmax_scan best besti (i + 1) xs - i))
        with (S (Z.to_nat (argmax_scan best besti (i + 1) xs - (i + 1)))) by lia.
      exact Hnth.
    + pose proof (SFleb_total x best Hx Hb Hle) as Hbx.
      destruct (IH x i (i + 1) Hx Hxs') as (m & Hm & Hxm & Hall & Hres).
      exists m. split; [exact Hm|]. split; [exact (SFleb_trans _ _ _ Hbx Hxm)|].
      split; [constructor; [exact Hxm | exact Hall]|].
      right. destruct Hres as [[Hres ->]|[Hge Hnth]].
      * rewrite Hres. split; [lia|]. now rewrite Z.sub_diag.
      * split; [lia|].
        replace (Z.to_nat (argmax_scan x i (i + 1) xs - i))
          with (S (Z.to_nat (argmax_scan x i (i + 1) xs - (i + 1)))) by lia.
        exact Hnth.
Qed.

Lemma argmax_row_max (row : list float32) :
  row <> [] ->
  Forall (fun x => is_nan x = false) row ->
  exists m,
    nth_error row (Z.to_nat (argmax_row row)) = Some m /\
    Forall (fun x => SFleb x m = true) row.
Proof.
  destruct row as [|x xs]; [contradiction|]. intros _ Hrow.
  inversion Hrow as [|x' xs' Hx Hxs]; subst.
  destruct (argmax_scan_max xs x 0 1 Hx Hxs) as (m & _ & Hxm & Hall & Hres).
  exists m. split; [|constructor; assumption].
  unfold argmax_row. destruct Hres as [[-> ->]|[Hge Hnth]]; [reflexivity|].
  replace (Z.to_nat (argmax_scan x 0 1 xs)) with (S (Z.to_nat (argmax_scan x 0 1 xs - 1))) by lia.
  exact Hnth.
Qed.

Lemma zip_with_length {A B C : Type} (f : A -> B -> C) (xs : list A) (ys : list B) :
  length (zip_with f xs ys) = Nat.min (length xs) (length ys).
Proof. unfold zip_with. now rewrite length_map, length_combine. Qed.

Lemma Forall2_Forall_l {A B : Type} (R : A -> B -> Prop) (P : A -> Prop)
    (xs : list A) (ys : list B) :
  Forall2 R xs ys -> (forall x y, R x y -> P x) -> Forall P xs.
Proof. intros HF HP. induction HF; constructor; eauto. Qed.

Section Target.
Context {E : Env} {T : Torch}.

(** C1 as it holds: for a batch as [sample] shapes it (one reward, one done
    flag and one next state for each entry) and networks that give one row
    of action values, not empty and of the same size for both, for each next
    state, [learn] computes for each entry the target
    [r + (gamma * q) * (1 - d)] in binary32 arithmetic, where [q] is the
    value the target network gives to the action [a] at which [max(1)]
    finds the local network's row maximal (a maximum of the row when the row
    has no NaN). For an entry with [done = 1] the target is the reward
    whatever [gamma] is, provided [gamma * q] is finite (neither infinite
    nor NaN). *)
Theorem double_dqn_target (self : Agent.t) (states : Tensor2 float32) (actions : Tensor2 Z)
    (next_states : Tensor2 float32) (R : list float32) (D : list bool) (gamma : float64) :
  let QL := forward (parameters (Agent.qnetwork_local self))
                    (training (Agent.qnetwork_local self)) next_states in
  let QT := forward (parameters (Agent.qnetwork_target self))
                    (training (Agent.qnetwork_target self)) next_states in
  length R = length next_states ->
  length D = length next_states ->
  length QL = length next_states ->
  Forall2 (fun ql qt => ql <> [] /\ length ql = length qt) QL QT ->
  exists Y,
    Agent.Q_targets self
      (states, actions, map (fun r => [r]) R, next_states,
       map (fun d => [bool_float d]) D) gamma
    = Ok (map (fun y => [y]) Y) /\
    length Y = length next_states /\
    (forall (i : nat) (r : float32) (d : bool) (ql qt : list float32),
       nth_error R i = Some r ->
       nth_error D i = Some d ->
       nth_error QL i = Some ql ->
       nth_error QT i = Some qt ->
       exists q y,
         (Forall (fun x => is_nan x = false) ql ->
          exists m, nth_error ql (Z.to_nat (argmax_row ql)) = Some m /\
                    Forall (fun x => SFleb x m = true) ql) /\
         nth_error qt (Z.to_nat (argmax_row ql)) = Some q /\
         nth_error Y i = Some y /\
         y = F32.add r (F32.mul (F32.mul (F64.to_f32 gamma) q)
                                (F32.sub F32.one (bool_float d))) /\
         (d = true -> F32.finite (F32.mul (F64.to_f32 gamma) q) = true -> F32.same y r)).
Proof.
  intros QL QT HR HD HQL HF.
  assert (Hne : Forall (fun row => row <> []) QL).
  { apply (Forall2_Forall_l _ _ _ _ HF). now intros x y [H _]. }
  destruct (gather_rows QT QL HF) as (qs & Hg & Hl & Hq).
  set (boot := zip_with F32.mul (map (F32.mul (F64.to_f32 gamma)) qs)
                 (map (fun d => F32.sub F32.one (bool_float d)) D)).
  exists (zip_with F32.add R boot).
  assert (Hboot : length boot = length next_states).
  { unfold boot. rewrite zip_with_length, !length_map, Hl, HQL, HD. apply Nat.min_id. }
  split; [|split].
  - unfold Agent.Q_targets. fold QL. fold QT.
    rewrite (torch_argmax_rows QL Hne). cbn [bind]. rewrite Hg. cbn [bind].
    assert (Hs1 : scalar_op F32.mul gamma (map (fun q => [q]) qs)
                  = map (fun x => [x]) (map (F32.mul (F64.to_f32 gamma)) qs)).
    { unfold scalar_op. rewrite !map_map. reflexivity. }
    assert (Hs2 : scalar_op F32.sub F64.one (map (fun d => [bool_float d]) D)
                  = map (fun x => [x]) (map (fun d => F32.sub F32.one (bool_float d)) D)).
    { unfold scalar_op. rewrite !map_map. reflexivity. }
    rewrite Hs1, Hs2, tensor_op_columns by (rewrite !length_map; lia).
    cbn [bind]. fold boot. apply tensor_op_columns. lia.
  - rewrite zip_with_length, Hboot, HR. apply Nat.min_id.
  - intros i r d ql qt Hr Hd Hql Hqt.
    destruct (Hq i ql qt Hql Hqt) as (q & Hqs & Hqt').
    exists q. eexists.
    split; [intros Hnan; apply argmax_row_max; [|exact Hnan]|].
    { rewrite Forall_forall in Hne. apply Hne. eapply nth_error_In. exact Hql. }
    split; [exact Hqt'|].
    assert (Hb : nth_error boot i
                 = Some (F32.mul (F32.mul (F64.to_f32 gamma) q)
                                 (F32.sub F32.one (bool_float d)))).
    { unfold boot. apply nth_error_zip_with.
      - exact (map_nth_error _ _ _ Hqs).
      - exact (map_nth_error (fun d => F32.sub F32.one (bool_float d)) _ _ Hd). }
    split; [exact (nth_error_zip_with _ _ _ _ _ _ Hr Hb)|]. split; [reflexivity|].
    intros -> Hfin. cbn [bool_float]. rewrite f32_one_minus_one.
    destruct (f32_mul_zero_r _ Hfin) as [s ->]. apply f32_add_zero_r.
Qed.

End Target.

(** C1 as stated fails: where the target network's value is infinite, the
    target of an entry with [done = 1] is a NaN and not the reward. *)
Lemma target_not_reward :
  Agent.Q_targets (agent_with_target [F32.inf; F32.zero])
    ([[F32.zero]], [[0]], [[F32.one]], [[F32.zero]], [[bool_float true]]) GAMMA
  = Ok [[F32.nan]] /\
  ~ F32.same F32.nan F32.one.
Proof.
  split; [reflexivity|]. intros [H|(s & s' & H & _)]; discriminate H.
Qed.

Lemma double_dqn_target_witness :
  exists Y,
    Agent.Q_targets (agent_with_target [F32.zero; F32.one])
      ([[F32.zero]], [[0]], [[F32.one]], [[F32.zero]], [[bool_float true]]) GAMMA
    = Ok (map (fun y => [y]) Y).
Proof.
  destruct (@double_dqn_target int_frames bias_network (agent_with_target [F32.zero; F32.one])
              [[F32.zero]] [[0]] [[F32.zero]] [F32.one] [true] GAMMA
              eq_refl eq_refl eq_refl
              ltac:(cbn; constructor; [split; [discriminate | reflexivity] | constructor]))
    as (Y & HY & _).
  exists Y. exact HY.
Defined.

(** ** Evaluations

    The embedding run on concrete inputs. *)

(** The Python constants as binary32 numbers: 0.99, 0.001 and 1.0 - 0.001. *)
Example constants_as_float32 :
  F64.to_f32 GAMMA = S754_finite false 16609444 (-24) /\
  F64.to_f32 TAU = S754_finite false 8589935 (-33) /\
  F64.to_f32 (F64.sub F64.one TAU) = S754_finite false 16760439 (-24).
Proof. repeat split. Qed.

Example normalised_elements :
  uint8_div255 255 = F32.one /\
  uint8_div255 0 = F32.zero /\
  uint8_div255 51 = S754_finite false 13421773 (-26).
Proof. repeat split. Qed.

Example encode_after_done :
  ReplayBuffer._encode_state_frames (buffer_of 5 1 2 three_transitions) 2
  = Ok [[0; 0]; [30; 31]].
Proof. reflexivity. Qed.

(** The next state of the newest transition ends with the oldest frame. *)
Example encode_past_the_end :
  ReplayBuffer._encode_state_frames (buffer_of 5 1 2 three_transitions) 3
  = Ok [[30; 31]; [10; 11]].
Proof. reflexivity. Qed.

(** An empty store has no first frame to shape the zero frames after, and
    nothing to take a remainder by. *)
Example encode_empty_store :
  ReplayBuffer._encode_state_frames (buffer_of 5 1 2 []) 0 = Raise IndexError /\
  ReplayBuffer._encode_state_frames (buffer_of 5 1 1 []) 0 = Raise ZeroDivisionError.
Proof. split; reflexivity. Qed.

Example sample_two_of_three :
  ReplayBuffer.sample (buffer_of 5 2 2 three_transitions) [2; 0]
  = Ok ([[F32.zero; F32.zero; uint8_div255 30; uint8_div255 31];
         [F32.zero; F32.zero; uint8_div255 10; uint8_div255 11]],
        [[0]; [1]],
        [[F32.one]; [F32.one]],
        [[uint8_div255 30; uint8_div255 31; uint8_div255 10; uint8_div255 11];
         [uint8_div255 10; uint8_div255 11; uint8_div255 20; uint8_div255 21]],
        [[F32.zero]; [F32.zero]]).
Proof. vm_compute. reflexivity. Qed.

(** More indices than the store holds, and [random.sample] raises. *)
Example sample_too_many :
  ReplayBuffer.sample (buffer_of 5 4 2 three_transitions) [2; 0; 1; 1] = Raise ValueError.
Proof. reflexivity. Qed.

(** A reward of 1 and a value of 1 that is not terminal: 1.99 as binary32. *)
Example target_of_running_entry :
  Agent.Q_targets (agent_with_target [F32.one; F32.zero])
    ([[F32.zero]], [[0]], [[F32.one]], [[F32.zero]], [[bool_float false]]) GAMMA
  = Ok [[S754_finite false 16693330 (-23)]].
Proof. vm_compute. reflexivity. Qed.

Example target_of_terminal_entry :
  Agent.Q_targets (agent_with_target [F32.one; F32.zero])
    ([[F32.zero]], [[0]], [[F32.one]], [[F32.zero]], [[bool_float true]]) GAMMA
  = Ok [[F32.one]].
Proof. vm_compute. reflexivity. Qed.

(** Learning is entered at the 36th call, and the soft update then moves
    the target parameters [1, 0] towards the local ones [0, 1] by 0.001. *)
Example learning_at_call_36 :
  snd (Run.steps (agent_of true) thirty_six_calls) = repeat NoLearning 35 ++ [Learned] /\
  parameters (Agent.qnetwork_target (fst (Run.steps (agent_of true) thirty_six_calls)))
  = [[S754_finite false 16760439 (-24); S754_finite false 8589935 (-33)]].
Proof. vm_compute. split; reflexivity. Qed.

Example act_greedy_picks_maximum :
  Agent.act_return (Agent.act (agent_of true) [] F64.zero f64_half 0 true) = Ok 1.
Proof. reflexivity. Qed.

(** * Further properties of the code *)

(** ** The encoder at its edges *)

Section EncoderEdges.
Context {E : Env}.

(** X1: the stack of an index always ends with the frame stored at that index
    (at [idx % len] when the index is beyond the store). *)
Theorem encode_ends_with_current (self : ReplayBuffer.t) (idx : Z) :
  0 < len (ReplayBuffer.memory self) ->
  1 <= ReplayBuffer.frame_history self ->
  0 <= idx ->
  exists front e,
    wrapped (ReplayBuffer.memory self) idx = Some e /\
    ReplayBuffer._encode_state_frames self idx = Ok (front ++ [state e]) /\
    len front = ReplayBuffer.frame_history self - 1.
Proof.
  intros Hn HH Hidx.
  destruct (encode_frames_spec self idx Hn HH Hidx)
    as (b & e0 & fs & He0 & Hb & _ & _ & HF & Henc).
  assert (Hr : range b (idx + 1) = range b idx ++ [idx]) by (apply range_snoc; lia).
  rewrite Hr in HF. apply Forall2_app_inv_l in HF.
  destruct HF as (fs1 & fs2 & HF1 & HF2 & ->).
  inversion HF2 as [|j f js fs3 (e & Hw & Hs) Hnil]; subst. inversion Hnil; subst.
  exists (repeat (zeros_like px_zero (state e0))
            (Z.to_nat (b - (idx + 1 - ReplayBuffer.frame_history self))) ++ fs1), e.
  split; [exact Hw|]. split; [now rewrite <- app_assoc|].
  apply Forall2_length_eq in HF1. rewrite range_length in HF1.
  unfold len, ReplayBuffer.Frame in *. rewrite length_app, repeat_length. lia.
Qed.

(** X2: with no [done] among the stored transitions that the history reaches
    before [idx], nothing is cut: the stack holds the stored frames of the
    indices [max(0, idx - H + 1) .. idx], and zero frames stand only for the
    indices below 0. *)
Theorem encode_without_boundary (self : ReplayBuffer.t) (idx : Z) :
  0 < len (ReplayBuffer.memory self) ->
  1 <= ReplayBuffer.frame_history self ->
  0 <= idx ->
  (forall j, 0 <= j -> idx - ReplayBuffer.frame_history self + 1 <= j < idx ->
             done_at (ReplayBuffer.memory self) j = false) ->
  exists e0 fs,
    nth_error (ReplayBuffer.memory self) 0 = Some e0 /\
    Forall2 (frame_at (ReplayBuffer.memory self))
            (range (Z.max 0 (idx - ReplayBuffer.frame_history self + 1)) (idx + 1)) fs /\
    ReplayBuffer._encode_state_frames self idx
    = Ok (repeat (zeros_like px_zero (state e0))
                 (Z.to_nat (ReplayBuffer.frame_history self - 1 - idx)) ++ fs).
Proof.
  intros Hn HH Hidx Hnone.
  destruct (encode_frames_spec self idx Hn HH Hidx)
    as (b & e0 & fs & He0 & Hb & Hlast & _ & HF & Henc).
  set (H := ReplayBuffer.frame_history self) in *.
  assert (Hbl : b = Z.max 0 (idx - H + 1)).
  { destruct Hlast as [->|Hd]; [f_equal; lia|].
    destruct (Z.eq_dec b (Z.max 0 (idx + 1 - H))) as [->|Hne]; [f_equal; lia|].
    rewrite Hnone in Hd by lia. discriminate. }
  exists e0, fs. split; [exact He0|]. split; [now rewrite <- Hbl|].
  rewrite Henc. do 3 f_equal. lia.
Qed.

(** X3: on an empty store [_encode_state] never returns: the zero frames want
    the shape of [memory[0]] (an [IndexError], for index 0 with a history of
    two or more), and everything else wants a remainder by the length 0. *)
Theorem encode_of_empty_store (self : ReplayBuffer.t) (idx : Z) :
  ReplayBuffer.memory self = [] ->
  1 <= ReplayBuffer.frame_history self ->
  0 <= idx ->
  let e := if (idx =? 0) && (2 <=? ReplayBuffer.frame_history self)
           then IndexError else ZeroDivisionError in
  ReplayBuffer._encode_state_frames self idx = Raise e /\
  ReplayBuffer._encode_state self idx = Raise e.
Proof.
  intros Hm HH Hidx e.
  assert (Hf : ReplayBuffer._encode_state_frames self idx = Raise e).
  { subst e. unfold ReplayBuffer._encode_state_frames. cbv zeta. rewrite Hm.
    change (len []) with 0.
    set (H := ReplayBuffer.frame_history self) in *.
    destruct (Z.eq_dec H 1) as [H1|H1].
    - rewrite H1. replace (idx + 1 - 1) with idx by lia.
      replace (idx <? 0) with false by (symmetry; apply Z.ltb_ge; lia).
      rewrite (range_empty idx idx) by lia. cbn [foldM bind].
      replace (1 - (idx + 1 - idx)) with 0 by lia.
      replace (idx <? 0) with false by (symmetry; apply Z.ltb_ge; lia).
      cbn [orb Z.ltb Z.compare]. rewrite (range_cons idx (idx + 1)) by lia.
      cbn [mapM py_mod Z.eqb bind]. now rewrite andb_false_r.
    - destruct (Z.eq_dec idx 0) as [->|H0].
      + change (0 + 1) with 1.
        replace (1 - H <? 0) with true by (symmetry; apply Z.ltb_lt; lia).
        change (1 - 1) with 0. rewrite (range_empty 0 0) by lia. cbn [foldM bind].
        change (1 - 0) with 1. change (0 <? 0) with false. cbn [orb].
        replace (0 <? H - 1) with true by (symmetry; apply Z.ltb_lt; lia).
        rewrite (range_cons 0 (H - 1)) by lia.
        replace (2 <=? H) with true by (symmetry; apply Z.leb_le; lia). reflexivity.
      + replace (idx =? 0) with false by (symmetry; apply Z.eqb_neq; exact H0).
        cbn [andb].
        set (lo := if idx + 1 - H <? 0 then 0 else idx + 1 - H).
        assert (Hlo : lo < idx + 1 - 1).
        { subst lo. destruct (idx + 1 - H <? 0) eqn:Hc;
            [apply Z.ltb_lt in Hc | apply Z.ltb_ge in Hc]; lia. }
        rewrite (range_cons lo (idx + 1 - 1) Hlo). reflexivity. }
  split; [exact Hf|]. unfold ReplayBuffer._encode_state. now rewrite Hf.
Qed.

(** X4: with a history of no frames (or fewer) nothing is stacked, whatever the
    store holds, and the concatenation raises. *)
Theorem encode_without_history (self : ReplayBuffer.t) (idx : Z) :
  ReplayBuffer.frame_history self <= 0 ->
  -1 <= idx ->
  ReplayBuffer._encode_state_frames self idx = Ok [] /\
  ReplayBuffer._encode_state self idx = Raise ValueError.
Proof.
  intros HH Hidx.
  assert (Hf : ReplayBuffer._encode_state_frames self idx = Ok []).
  { unfold ReplayBuffer._encode_state_frames. cbv zeta.
    set (H := ReplayBuffer.frame_history self) in *.
    replace (idx + 1 - H <? 0) with false by (symmetry; apply Z.ltb_ge; lia).
    rewrite (range_empty (idx + 1 - H) (idx + 1 - 1)) by lia. cbn [foldM bind].
    replace (H - (idx + 1 - (idx + 1 - H))) with 0 by lia.
    replace (idx + 1 - H <? 0) with false by (symmetry; apply Z.ltb_ge; lia).
    cbn [orb Z.ltb Z.compare]. now rewrite (range_empty (idx + 1 - H) (idx + 1)) by lia. }
  split; [exact Hf|]. unfold ReplayBuffer._encode_state. now rewrite Hf.
Qed.

(** X5: a negative index does not count from the end of the store: its stack
    holds no stored frame, only [H - (idx + 1)] zero frames, which are more
    than [H] for an index below -1. *)
Theorem encode_negative_index (self : ReplayBuffer.t) (idx : Z) :
  0 < len (ReplayBuffer.memory self) ->
  1 <= ReplayBuffer.frame_history self ->
  idx < 0 ->
  exists e0,
    nth_error (ReplayBuffer.memory self) 0 = Some e0 /\
    ReplayBuffer._encode_state_frames self idx
    = Ok (repeat (zeros_like px_zero (state e0))
                 (Z.to_nat (ReplayBuffer.frame_history self - (idx + 1)))).
Proof.
  intros Hn HH Hidx. destruct (first_read _ Hn) as (e0 & He0 & Hget).
  exists e0. split; [exact He0|].
  unfold ReplayBuffer._encode_state_frames. cbv zeta.
  set (H := ReplayBuffer.frame_history self) in *.
  replace (idx + 1 - H <? 0) with true by (symmetry; apply Z.ltb_lt; lia).
  rewrite (range_empty 0 (idx + 1 - 1)) by lia. cbn [foldM bind Z.ltb Z.compare orb].
  replace (0 <? H - (idx + 1 - 0)) with true by (symmetry; apply Z.ltb_lt; lia).
  rewrite (zero_frames _ e0 _ Hget). cbn [bind].
  rewrite (range_empty 0 (idx + 1)) by lia. cbn [mapM bind].
  rewrite app_nil_r. do 3 f_equal. lia.
Qed.

End EncoderEdges.

Lemma encode_ends_with_current_witness :
  exists front,
    ReplayBuffer._encode_state_frames (buffer_of 5 1 3 three_transitions) 1
    = Ok (front ++ [[20; 21]]).
Proof.
  destruct (@encode_ends_with_current int_frames (buffer_of 5 1 3 three_transitions) 1
              ltac:(reflexivity) ltac:(cbn; lia) ltac:(lia))
    as (front & e & Hw & Henc & _).
  exists front. rewrite Henc. cbn in Hw. injection Hw as <-. reflexivity.
Defined.

Lemma encode_without_boundary_witness :
  exists fs,
    ReplayBuffer._encode_state_frames (buffer_of 5 1 3 three_transitions) 1
    = Ok ([[0; 0]] ++ fs).
Proof.
  assert (Hnone : forall j, 0 <= j -> 1 - 3 + 1 <= j < 1 ->
                            done_at three_transitions j = false).
  { intros j H0 H1. assert (j = 0) as -> by lia. reflexivity. }
  destruct (@encode_without_boundary int_frames (buffer_of 5 1 3 three_transitions) 1
              ltac:(reflexivity) ltac:(cbn; lia) ltac:(lia) Hnone)
    as (e0 & fs & He0 & _ & Henc).
  exists fs. rewrite Henc. cbn in He0. injection He0 as <-. reflexivity.
Defined.

Lemma encode_of_empty_store_witness :
  ReplayBuffer._encode_state (buffer_of 5 1 4 []) 0 = Raise IndexError.
Proof.
  exact (proj2 (@encode_of_empty_store int_frames (buffer_of 5 1 4 []) 0
                  eq_refl ltac:(cbn; lia) ltac:(lia))).
Defined.

Lemma encode_without_history_witness :
  ReplayBuffer._encode_state (buffer_of 5 1 0 three_transitions) 2 = Raise ValueError.
Proof.
  exact (proj2 (@encode_without_history int_frames (buffer_of 5 1 0 three_transitions) 2
                  ltac:(cbn; lia) ltac:(lia))).
Defined.

Lemma encode_negative_index_witness :
  ReplayBuffer._encode_state_frames (buffer_of 5 1 2 three_transitions) (-2)
  = Ok [[0; 0]; [0; 0]; [0; 0]].
Proof.
  destruct (@encode_negative_index int_frames (buffer_of 5 1 2 three_transitions) (-2)
              ltac:(reflexivity) ltac:(cbn; lia) ltac:(lia))
    as (e0 & He0 & Henc).
  rewrite Henc. cbn in He0. injection He0 as <-. reflexivity.
Defined.

(** ** What an encoded state is made of *)

Lemma concat_length_uniform {A : Type} (L : nat) (fs : list (list A)) :
  Forall (fun f => length f = L) fs -> length (concat fs) = (length fs * L)%nat.
Proof.
  induction 1 as [|f fs Hf _ IH]; [reflexivity|].
  cbn [concat length]. rewrite length_app, Hf, IH. lia.
Qed.

Lemma wrapped_In {A : Type} (mem : list A) (idx : Z) (e : A) :
  wrapped mem idx = Some e -> In e mem.
Proof. unfold wrapped. apply nth_error_In. Qed.

Lemma mapM_raise {A B : Type} (f : A -> py B) (pre post : list A) (x : A) (ys : list B)
    (e : exn) :
  mapM f pre = Ok ys -> f x = Raise e -> mapM f (pre ++ x :: post) = Raise e.
Proof.
  revert ys. induction pre as [|p pre IH]; intros ys Hpre Hx.
  - cbn [app mapM]. now rewrite Hx.
  - cbn [app mapM] in *. destruct (f p) as [y|]; [|discriminate]. cbn [bind] in *.
    destruct (mapM f pre) as [ys'|]; [|discriminate]. now rewrite (IH ys' eq_refl Hx).
Qed.

(** Every integer from 0 to 255 divided by 255.0 and stored as binary32 is a
    number from 0.0 to 1.0. *)
Lemma uint8_div255_unit (p : Z) :
  0 <= p <= 255 ->
  SFleb F32.zero (uint8_div255 p) = true /\ SFleb (uint8_div255 p) F32.one = true.
Proof.
  intros Hp.
  assert (Hall : forallb (fun q => SFleb F32.zero (uint8_div255 q)
                                   && SFleb (uint8_div255 q) F32.one)
                         (range 0 256) = true) by (vm_compute; reflexivity).
  rewrite forallb_forall in Hall. specialize (Hall p).
  apply andb_true_iff. apply Hall. apply in_range. lia.
Qed.

Section EncodedContents.
Context {E : Env}.

(** The frames of a stack are zero frames shaped after the frame stored
    first, or frames stored in the memory. *)
Lemma encode_frames_origin (self : ReplayBuffer.t) (idx : Z) :
  0 < len (ReplayBuffer.memory self) ->
  1 <= ReplayBuffer.frame_history self ->
  0 <= idx ->
  exists e0 frames,
    nth_error (ReplayBuffer.memory self) 0 = Some e0 /\
    ReplayBuffer._encode_state self idx = Ok [map div255 (concat frames)] /\
    length frames = Z.to_nat (ReplayBuffer.frame_history self) /\
    Forall (fun f => f = zeros_like px_zero (state e0)
                     \/ exists e, In e (ReplayBuffer.memory self) /\ f = state e) frames.
Proof.
  intros Hn HH Hidx.
  destruct (encode_state_total self idx Hn HH Hidx) as (b & e0 & fs & He0 & Hb & HF & _ & Henc).
  exists e0. eexists. split; [exact He0|]. split; [exact Henc|]. split.
  - pose proof (Forall2_length_eq _ _ _ HF) as Hl. rewrite range_length in Hl.
    unfold ReplayBuffer.Frame in *. rewrite length_app, repeat_length. lia.
  - apply Forall_app. split.
    + apply Forall_forall. intros f Hf. left. exact (repeat_spec _ _ _ Hf).
    + apply Forall_forall. intros f Hf.
      destruct (Forall2_In_r _ _ _ _ HF Hf) as (j & _ & e & Hw & Hs).
      right. exists e. split; [exact (wrapped_In _ _ _ Hw) | now symmetry].
Qed.

(** X6: when every stored frame has [L] elements, every encoded state is one
    row of [frame_history * L] numbers, zero padding or not. *)
Theorem encode_row_length (self : ReplayBuffer.t) (idx : Z) (L : nat) :
  Forall (fun e => length (state e) = L) (ReplayBuffer.memory self) ->
  0 < len (ReplayBuffer.memory self) ->
  1 <= ReplayBuffer.frame_history self ->
  0 <= idx ->
  exists row,
    ReplayBuffer._encode_state self idx = Ok [row] /\
    length row = (Z.to_nat (ReplayBuffer.frame_history self) * L)%nat.
Proof.
  intros HL Hn HH Hidx.
  destruct (encode_frames_origin self idx Hn HH Hidx) as (e0 & frames & He0 & Henc & Hlen & Hfr).
  eexists. split; [exact Henc|]. rewrite length_map, <- Hlen.
  apply concat_length_uniform. rewrite Forall_forall in HL.
  apply Forall_forall. intros f Hf. rewrite Forall_forall in Hfr.
  destruct (Hfr f Hf) as [->|(e & He & ->)].
  - unfold zeros_like. rewrite length_map. apply HL. eapply nth_error_In. exact He0.
  - now apply HL.
Qed.

(** X7: an encoded state is made of the [state] frames and the [done] flags of
    the stored transitions and of nothing else in them: the actions, the
    rewards and the [next_state] frames can be replaced at will. *)
Theorem encode_reads_state_and_done (self : ReplayBuffer.t)
    (g : Experience ReplayBuffer.Frame rew -> Experience ReplayBuffer.Frame rew) (idx : Z) :
  (forall e, state (g e) = state e /\ done (g e) = done e) ->
  ReplayBuffer._encode_state
    (ReplayBuffer.set_memory self (map g (ReplayBuffer.memory self))) idx
  = ReplayBuffer._encode_state self idx.
Proof.
  intros Hg. unfold ReplayBuffer._encode_state. f_equal.
  unfold ReplayBuffer._encode_state_frames. cbv zeta.
  cbn [ReplayBuffer.set_memory ReplayBuffer.memory ReplayBuffer.frame_history].
  rewrite len_map. set (mem := ReplayBuffer.memory self).
  assert (Hscan : forall (s j : Z),
            (i <- py_mod j (len mem) ;;
             e <- getitem (map g mem) i ;;
             Ok (if done e then j + 1 else s))
            = (i <- py_mod j (len mem) ;;
               e <- getitem mem i ;;
               Ok (if done e then j + 1 else s))).
  { intros s j. destruct (py_mod j (len mem)) as [i|]; [|reflexivity]. cbn [bind].
    rewrite getitem_map. destruct (getitem mem i) as [e|]; [|reflexivity].
    cbn [bind]. now rewrite (proj2 (Hg e)). }
  assert (Hreal : forall j : Z,
            (i <- py_mod j (len mem) ;; e <- getitem (map g mem) i ;; Ok (state e))
            = (i <- py_mod j (len mem) ;; e <- getitem mem i ;; Ok (state e))).
  { intros j. destruct (py_mod j (len mem)) as [i|]; [|reflexivity]. cbn [bind].
    rewrite getitem_map. destruct (getitem mem i) as [e|]; [|reflexivity].
    cbn [bind]. now rewrite (proj1 (Hg e)). }
  assert (Hzero : forall j : Z,
            (e <- getitem (map g mem) 0 ;; Ok (zeros_like px_zero (state e)))
            = (e <- getitem mem 0 ;; Ok (zeros_like px_zero (state e)))).
  { intros _. rewrite getitem_map. destruct (getitem mem 0) as [e|]; [|reflexivity].
    cbn [bind]. now rewrite (proj1 (Hg e)). }
  rewrite (foldM_ext _ _ _ _ Hscan).
  destruct (foldM _ _ _) as [b|]; [|reflexivity]. cbn [bind].
  rewrite (mapM_ext _ _ _ Hreal), (mapM_ext _ _ _ Hzero). reflexivity.
Qed.

(** X11: [get_experiences] stops with an [IndexError] at the first index at or
    beyond the length of the store: the two stacks are built under the wrap,
    but [memory[idx]] is read without it. *)
Theorem get_experiences_out_of_range (self : ReplayBuffer.t) (pre post : list Z) (idx : Z) :
  1 <= ReplayBuffer.frame_history self ->
  0 < len (ReplayBuffer.memory self) ->
  Forall (fun i => 0 <= i < len (ReplayBuffer.memory self)) pre ->
  len (ReplayBuffer.memory self) <= idx ->
  ReplayBuffer.get_experiences self (pre ++ idx :: post) = Raise IndexError.
Proof.
  intros HH Hn Hpre Hidx.
  destruct (get_experiences_spec self pre HH Hpre) as (xs & Hxs & _).
  unfold ReplayBuffer.get_experiences in *. apply (mapM_raise _ _ _ _ _ _ Hxs).
  destruct (encode_state_total self idx Hn HH ltac:(lia)) as (b0 & e0 & fs0 & _ & _ & _ & _ & ->).
  destruct (encode_state_total self (idx + 1) Hn HH ltac:(lia))
    as (b1 & e1 & fs1 & _ & _ & _ & _ & ->).
  cbn [bind]. rewrite getitem_nonneg by lia.
  replace (nth_error (ReplayBuffer.memory self) (Z.to_nat idx)) with
    (@None (Experience ReplayBuffer.Frame rew)); [reflexivity|].
  symmetry. apply nth_error_None. unfold len in Hidx. lia.
Qed.

End EncodedContents.

(** X8: frames of integers from 0 to 255 give encoded states of numbers from 0.0
    to 1.0. *)
Theorem encode_unit_interval (self : @ReplayBuffer.t int_frames) (idx : Z) :
  Forall (fun e => Forall (fun p => 0 <= p <= 255) (state e)) (ReplayBuffer.memory self) ->
  0 < len (ReplayBuffer.memory self) ->
  1 <= ReplayBuffer.frame_history self ->
  0 <= idx ->
  exists row,
    ReplayBuffer._encode_state self idx = Ok [row] /\
    Forall (fun v => SFleb F32.zero v = true /\ SFleb v F32.one = true) row.
Proof.
  intros Hpx Hn HH Hidx.
  destruct (@encode_frames_origin int_frames self idx Hn HH Hidx)
    as (e0 & frames & He0 & Henc & _ & Hfr).
  eexists. split; [exact Henc|].
  apply Forall_forall. intros v Hv. apply in_map_iff in Hv. destruct Hv as (p & <- & Hp).
  apply uint8_div255_unit. apply in_concat in Hp. destruct Hp as (f & Hf & Hpf).
  rewrite Forall_forall in Hfr, Hpx. destruct (Hfr f Hf) as [->|(e & He & ->)].
  - unfold zeros_like in Hpf. apply in_map_iff in Hpf. destruct Hpf as (_ & <- & _).
    cbn. lia.
  - specialize (Hpx e He). rewrite Forall_forall in Hpx. now apply Hpx.
Qed.

Lemma encode_row_length_witness :
  exists row,
    ReplayBuffer._encode_state (buffer_of 5 1 4 three_transitions) 2 = Ok [row] /\
    length row = 8%nat.
Proof.
  refine (@encode_row_length int_frames (buffer_of 5 1 4 three_transitions) 2 2 _ _ _ _).
  - repeat constructor.
  - reflexivity.
  - cbn; lia.
  - lia.
Defined.

Lemma encode_reads_state_and_done_witness :
  ReplayBuffer._encode_state
    (buffer_of 5 1 2 (map (fun e => experience (state e) 7 F64.zero [] (done e))
                          three_transitions)) 2
  = ReplayBuffer._encode_state (buffer_of 5 1 2 three_transitions) 2.
Proof.
  exact (@encode_reads_state_and_done int_frames (buffer_of 5 1 2 three_transitions)
           (fun e => experience (state e) 7 F64.zero [] (done e)) 2
           (fun e => conj eq_refl eq_refl)).
Defined.

Lemma get_experiences_out_of_range_witness :
  ReplayBuffer.get_experiences (buffer_of 5 1 2 three_transitions) [1; 3; 0]
  = Raise IndexError.
Proof.
  refine (@get_experiences_out_of_range int_frames (buffer_of 5 1 2 three_transitions)
            [1] [0] 3 _ _ _ _).
  - cbn; lia.
  - reflexivity.
  - constructor; [cbn; lia | constructor].
  - cbn; lia.
Defined.

Lemma encode_unit_interval_witness :
  exists row,
    ReplayBuffer._encode_state (buffer_of 5 1 2 three_transitions) 2 = Ok [row] /\
    Forall (fun v => SFleb F32.zero v = true /\ SFleb v F32.one = true) row.
Proof.
  refine (encode_unit_interval (buffer_of 5 1 2 three_transitions) 2 _ _ _ _).
  - repeat constructor; cbn; lia.
  - reflexivity.
  - cbn; lia.
  - lia.
Defined.

(** ** The sampler at its edges *)

Section SamplerEdges.
Context {E : Env}.

Lemma encode_state_single_row (self : ReplayBuffer.t) (idx : Z) (st : Tensor2 float32) :
  ReplayBuffer._encode_state self idx = Ok st -> exists row, st = [row].
Proof.
  unfold ReplayBuffer._encode_state.
  destruct (ReplayBuffer._encode_state_frames self idx) as [frames|]; [|discriminate].
  cbn [bind]. destruct (np_concatenate frames) as [stacked|]; [|discriminate].
  cbn [bind]. intros H. injection H as <-. now eexists.
Qed.

(** What [get_experiences] returns, whenever it returns. *)
Lemma get_experiences_inv (self : ReplayBuffer.t) (idxs : list Z)
    (xs : list (Experience (Tensor2 float32) rew)) :
  ReplayBuffer.get_experiences self idxs = Ok xs ->
  Forall2 (fun idx x =>
             exists e s s',
               getitem (ReplayBuffer.memory self) idx = Ok e /\
               ReplayBuffer._encode_state self idx = Ok [s] /\
               ReplayBuffer._encode_state self (idx + 1) = Ok [s'] /\
               x = experience [s] (action e) (reward e) [s'] (done e)) idxs xs.
Proof.
  intros H. apply mapM_inv in H. induction H as [|idx x idxs xs Hx _ IH]; constructor.
  - clear IH.
    destruct (ReplayBuffer._encode_state self idx) as [st|] eqn:Hst; [|discriminate].
    cbn [bind] in Hx.
    destruct (ReplayBuffer._encode_state self (idx + 1)) as [nx|] eqn:Hnx; [|discriminate].
    cbn [bind] in Hx.
    destruct (getitem (ReplayBuffer.memory self) idx) as [e|] eqn:He; [|discriminate].
    cbn [bind] in Hx. injection Hx as <-.
    destruct (encode_state_single_row _ _ _ Hst) as [s ->].
    destruct (encode_state_single_row _ _ _ Hnx) as [s' ->].
    now exists e, s, s'.
  - exact IH.
Qed.

Lemma single_rows (P : Z -> Experience (Tensor2 float32) rew -> Prop)
    (idxs : list Z) (xs : list (Experience (Tensor2 float32) rew)) :
  Forall2 P idxs xs ->
  (forall idx x, P idx x -> exists s s', state x = [s] /\ next_state x = [s']) ->
  concat (map (fun x => state x) xs) = map (fun x => hd [] (state x)) xs /\
  concat (map (fun x => next_state x) xs) = map (fun x => hd [] (next_state x)) xs.
Proof.
  intros HF HP. split; apply concat_singletons; intros x Hx;
    destruct (Forall2_In_r _ _ _ _ HF Hx) as (idx & _ & HPx);
    destruct (HP idx x HPx) as (s & s' & Hs & Hs'); cbn beta.
  - pose proof (f_equal (hd []) Hs) as Hh. cbn in Hh.
    etransitivity; [exact Hs|]. f_equal. symmetry. exact Hh.
  - pose proof (f_equal (hd []) Hs') as Hh. cbn in Hh.
    etransitivity; [exact Hs'|]. f_equal. symmetry. exact Hh.
Qed.

(** X12: whenever [sample] returns, whatever the store, the history and the draw,
    the five arrays have one row for each index drawn, in the order drawn:
    the stack of the index, the action, reward and done flag stored at the
    index (a negative index counting from the end, as [memory[idx]] does),
    and the stack of the next index; and the draw had [batch_size] indices
    or [sample] was given a draw that [random.sample] cannot make. *)
Theorem sample_sound (self : ReplayBuffer.t) (draw : list Z)
    (states : Tensor2 float32) (actions : Tensor2 Z)
    (rewards next_states dones : Tensor2 float32) :
  ReplayBuffer.sample self draw = Ok (states, actions, rewards, next_states, dones) ->
  0 <= ReplayBuffer.batch_size self <= ReplayBuffer.__len__ self /\
  draw <> [] /\
  length states = length draw /\ length actions = length draw /\
  length rewards = length draw /\ length next_states = length draw /\
  length dones = length draw /\
  (forall (i : nat) (idx : Z),
     nth_error draw i = Some idx ->
     exists e s s',
       getitem (ReplayBuffer.memory self) idx = Ok e /\
       ReplayBuffer._encode_state self idx = Ok [s] /\
       ReplayBuffer._encode_state self (idx + 1) = Ok [s'] /\
       nth_error states i = Some s /\
       nth_error actions i = Some [action e] /\
       nth_error rewards i = Some [rew_float (reward e)] /\
       nth_error next_states i = Some s' /\
       nth_error dones i = Some [bool_float (done e)]).
Proof.
  unfold ReplayBuffer.sample, random_sample, ReplayBuffer.__len__.
  destruct ((ReplayBuffer.batch_size self <? 0)
            || (len (ReplayBuffer.memory self) <? ReplayBuffer.batch_size self)) eqn:Hk;
    [discriminate|].
  apply orb_false_iff in Hk. destruct Hk as [Hk0 Hkn].
  apply Z.ltb_ge in Hk0. apply Z.ltb_ge in Hkn. cbn [bind].
  destruct (ReplayBuffer.get_experiences self draw) as [xs|] eqn:Hget; [|discriminate].
  cbn [bind]. pose proof (get_experiences_inv _ _ _ Hget) as HF.
  destruct xs as [|x0 xs0] eqn:Hxs; [discriminate|]. rewrite <- Hxs in *.
  assert (Hne : xs <> []) by (rewrite Hxs; discriminate).
  rewrite !np_vstack_ok by (rewrite Hxs; discriminate). cbn [bind].
  destruct (single_rows _ _ _ HF) as [Hs Hs'].
  { intros idx x (e & s & s' & _ & _ & _ & ->). now exists s, s'. }
  intros Heq. injection Heq as <- <- <- <- <-.
  pose proof (Forall2_length_eq _ _ _ HF) as Hlen.
  split; [lia|]. split.
  { intros ->. inversion HF. congruence. }
  assert (Ha : concat (map (fun e : Experience (Tensor2 float32) rew => [[action e]]) xs)
               = map (fun x => [action x]) xs) by now apply concat_singletons.
  assert (Hr : concat (map (fun e : Experience (Tensor2 float32) rew =>
                              [[rew_float (reward e)]]) xs)
               = map (fun x => [rew_float (reward x)]) xs) by now apply concat_singletons.
  assert (Hd : concat (map (fun e : Experience (Tensor2 float32) rew =>
                              [[bool_float (done e)]]) xs)
               = map (fun x => [bool_float (done x)]) xs) by now apply concat_singletons.
  rewrite Hs, Hs', Ha, Hr, Hd, !length_map.
  do 5 (split; [now symmetry|]).
  intros i idx Hi.
  destruct (Forall2_nth_error _ _ _ _ _ HF Hi) as (x & Hx & e & s & s' & He & Hst & Hnx & ->).
  exists e, s, s'. repeat split; try assumption; exact (map_nth_error _ _ _ Hx).
Qed.

(** X13: [sample] raises a [ValueError] when [batch_size] is negative or more
    than the store holds ([random.sample] refuses), and when nothing is
    drawn ([np.vstack] has nothing to stack), as with a [batch_size] of
    0. *)
Theorem sample_value_error (self : ReplayBuffer.t) (draw : list Z) :
  ReplayBuffer.batch_size self < 0
  \/ ReplayBuffer.__len__ self < ReplayBuffer.batch_size self
  \/ draw = [] ->
  ReplayBuffer.sample self draw = Raise ValueError.
Proof.
  unfold ReplayBuffer.sample, random_sample, ReplayBuffer.__len__.
  intros H.
  destruct ((ReplayBuffer.batch_size self <? 0)
            || (len (ReplayBuffer.memory self) <? ReplayBuffer.batch_size self)) eqn:Hk;
    [reflexivity|].
  apply orb_false_iff in Hk. destruct Hk as [Hk0 Hkn].
  apply Z.ltb_ge in Hk0. apply Z.ltb_ge in Hkn.
  destruct H as [H|[H| ->]]; [lia | lia | reflexivity].
Qed.



End SamplerEdges.

Lemma sample_sound_witness :
  exists e,
    getitem three_transitions 2 = Ok e /\
    nth_error [[0]; [1]] 0 = Some [action e].
Proof.
  eassert (Hs : ReplayBuffer.sample (buffer_of 5 2 2 three_transitions) [2; 0]
                = Ok (_, [[0]; [1]], _, _, _)) by (vm_compute; reflexivity).
  destruct (@sample_sound int_frames _ _ _ _ _ _ _ Hs)
    as (_ & _ & _ & _ & _ & _ & _ & Hrows).
  destruct (Hrows 0%nat 2 eq_refl) as (e & s & s' & He & _ & _ & _ & Ha & _).
  exists e. split; [exact He | exact Ha].
Defined.

Lemma sample_value_error_witness :
  ReplayBuffer.sample (buffer_of 5 4 2 three_transitions) [0; 1; 2; 0] = Raise ValueError.
Proof.
  refine (@sample_value_error int_frames (buffer_of 5 4 2 three_transitions) [0; 1; 2; 0] _).
  right. left. cbn. lia.
Defined.


(** ** The policy selector at its edges *)

Lemma SFltb_le_trans (x y z : spec_float) :
  SFltb x y = true -> SFleb y z = true -> SFltb x z = true.
Proof.
  unfold SFltb, SFleb.
  destruct x as [sx|sx| |sx mx ex], y as [sy|sy| |sy my ey], z as [sz|sz| |sz mz ez]; cbn;
    try discriminate; try destruct sx; try destruct sy; try destruct sz;
    try discriminate; try reflexivity;
    order_cases; cbn; try discriminate; try reflexivity; try lia.
Qed.

(** The scan ends at the first index of a maximal element: what comes
    before it is smaller, and nothing is larger. *)
Lemma argmax_scan_first (xs : list float32) :
  forall (best : float32) (besti i : Z),
  besti < i ->
  is_nan best = false ->
  Forall (fun x => is_nan x = false) xs ->
  (argmax_scan best besti i xs = besti /\ Forall (fun x => SFleb x best = true) xs)
  \/ (i <= argmax_scan best besti i xs /\
      exists m,
        nth_error xs (Z.to_nat (argmax_scan best besti i xs - i)) = Some m /\
        SFleb m best = false /\
        Forall (fun x => SFleb x m = true) xs /\
        (forall (k : nat) (x : float32),
           (k < Z.to_nat (argmax_scan best besti i xs - i))%nat ->
           nth_error xs k = Some x -> SFleb m x = false)).
Proof.
  induction xs as [|x xs IH]; intros best besti i Hbi Hb Hxs; cbn [argmax_scan].
  - left. split; [reflexivity | constructor].
  - inversion Hxs as [|x' xs' Hx Hxs']; subst. rewrite Hb.
    destruct (SFleb x best) eqn:Hle.
    + destruct (IH best besti (i + 1) ltac:(lia) Hb Hxs')
        as [[Hr Hall]|(Hge & m & Hm & Hmb & Hall & Hfirst)].
      * left. split; [exact Hr | now constructor].
      * right. split; [lia|]. exists m.
        assert (Hnm : is_nan m = false).
        { rewrite Forall_forall in Hxs'. apply Hxs'. eapply nth_error_In. exact Hm. }
        replace (Z.to_nat (argmax_scan best besti (i + 1) xs - i))
          with (S (Z.to_nat (argmax_scan best besti (i + 1) xs - (i + 1)))) by lia.
        split; [exact Hm|]. split; [exact Hmb|]. split.
        -- constructor; [|exact Hall].
           exact (SFleb_trans _ _ _ Hle (SFleb_total _ _ Hnm Hb Hmb)).
        -- intros [|k] y Hk Hy; cbn [nth_error] in Hy.
           ++ injection Hy as <-. destruct (SFleb m x) eqn:Hmx; [|reflexivity].
              now rewrite (SFleb_trans _ _ _ Hmx Hle) in Hmb.
           ++ apply (Hfirst k y); [lia | exact Hy].
    + pose proof (SFleb_total x best Hx Hb Hle) as Hbx.
      destruct (IH x i (i + 1) ltac:(lia) Hx Hxs')
        as [[Hr Hall]|(Hge & m & Hm & Hmx & Hall & Hfirst)].
      * right. rewrite Hr. split; [lia|]. exists x. rewrite Z.sub_diag.
        split; [reflexivity|]. split; [exact Hle|]. split.
        -- constructor; [now apply SFleb_refl | exact Hall].
        -- intros k y Hk. cbn in Hk. lia.
      * right. split; [lia|]. exists m.
        assert (Hnm : is_nan m = false).
        { rewrite Forall_forall in Hxs'. apply Hxs'. eapply nth_error_In. exact Hm. }
        replace (Z.to_nat (argmax_scan x i (i + 1) xs - i))
          with (S (Z.to_nat (argmax_scan x i (i + 1) xs - (i + 1)))) by lia.
        split; [exact Hm|]. split.
        -- destruct (SFleb m best) eqn:Hmb; [|reflexivity].
           now rewrite (SFleb_trans _ _ _ Hmb Hbx) in Hmx.
        -- split.
           ++ constructor; [exact (SFleb_total _ _ Hnm Hx Hmx) | exact Hall].
           ++ intros [|k] y Hk Hy; cbn [nth_error] in Hy.
              ** now injection Hy as <-.
              ** apply (Hfirst k y); [lia | exact Hy].
Qed.

Section PolicyEdges.
Context {E : Env} {T : Torch}.

(** X16: the epsilon test [random.random() > eps] beyond 0 and 1: a NaN and
    every [eps >= 1.0] make every call take the random branch, and every
    [eps < 0.0] makes every call greedy, the outcome 0.0 included. *)
Theorem act_epsilon_edges (self : Agent.t) (state : list float32) (eps u : float64) (c : Z)
    (g : bool) :
  random_outcome u ->
  (eps = S754_nan \/ SFleb F64.one eps = true ->
   Agent.act self state eps u c g
   = Agent.act_result self (random_choice (range 0 (Agent.action_size self)) c) [] g) /\
  (SFltb eps F64.zero = true ->
   Agent.act self state eps u c g
   = Agent.act_result
       (Agent.set_qnetwork_local self (train (Agent.qnetwork_local self)))
       (np_argmax (concat (forward (parameters (Agent.qnetwork_local self)) false [state])))
       [forward_call false false [state]] g).
Proof.
  intros (_ & _ & Hle & Hlt). split.
  - intros Heps. apply act_random. destruct Heps as [->|Hge]; [reflexivity|].
    destruct (SFltb eps u) eqn:Hc; [|reflexivity].
    pose proof (SFltb_le_trans _ _ _ Hlt Hge) as Hue.
    now rewrite (SFltb_asym _ _ Hue) in Hc.
  - intros Hneg. apply act_greedy. exact (SFltb_le_trans _ _ _ Hneg Hle).
Qed.

(** X17: on the greedy branch [act] returns an index into the action values the
    network gave (a [ValueError] if it gave none), and when none of them is
    a NaN it is the first index of a maximal value. *)
Theorem act_greedy_first_maximum (self : Agent.t) (state : list float32) (eps u : float64)
    (c : Z) (g : bool) :
  SFltb eps u = true ->
  let values := concat (forward (parameters (Agent.qnetwork_local self)) false [state]) in
  let r := Agent.act_return (Agent.act self state eps u c g) in
  (values = [] -> r = Raise ValueError) /\
  (values <> [] ->
   exists a,
     r = Ok a /\ 0 <= a < len values /\
     (Forall (fun x => is_nan x = false) values ->
      exists m,
        nth_error values (Z.to_nat a) = Some m /\
        Forall (fun x => SFleb x m = true) values /\
        (forall (k : nat) (x : float32),
           (k < Z.to_nat a)%nat -> nth_error values k = Some x -> SFleb m x = false))).
Proof.
  intros Hgreedy values r. subst r. rewrite act_greedy by exact Hgreedy.
  cbn [Agent.act_return]. fold values. split; [now intros ->|].
  destruct values as [|v0 rest]; [contradiction|]. intros _.
  exists (argmax_scan v0 0 1 rest). split; [reflexivity|]. split.
  { pose proof (argmax_scan_bounds rest v0 0 1 ltac:(lia)) as Hb.
    unfold len in *. cbn [length]. lia. }
  intros Hnan. inversion Hnan as [|v0' rest' Hv0 Hrest]; subst.
  destruct (argmax_scan_first rest v0 0 1 ltac:(lia) Hv0 Hrest)
    as [[Hr Hall]|(Hge & m & Hm & Hmv & Hall & Hfirst)].
  - rewrite Hr. exists v0. split; [reflexivity|]. split.
    + constructor; [now apply SFleb_refl | exact Hall].
    + intros k x Hk. cbn in Hk. lia.
  - exists m.
    assert (Hnm : is_nan m = false).
    { rewrite Forall_forall in Hrest. apply Hrest. eapply nth_error_In. exact Hm. }
    replace (Z.to_nat (argmax_scan v0 0 1 rest))
      with (S (Z.to_nat (argmax_scan v0 0 1 rest - 1))) by lia.
    split; [exact Hm|]. split.
    + constructor; [exact (SFleb_total _ _ Hnm Hv0 Hmv) | exact Hall].
    + intros [|k] x Hk Hx; cbn [nth_error] in Hx.
      * now injection Hx as <-.
      * apply (Hfirst k x); [lia | exact Hx].
Qed.

(** X18: on the random branch [act] evaluates no network and leaves the agent
    and the gradient mode as they are; it returns the position
    [random.choice] drew in [[0, action_size)], and raises an [IndexError]
    when [action_size] is 0 or less, there being nothing to choose from. *)
Theorem act_random_branch (self : Agent.t) (state : list float32) (eps u : float64) (c : Z)
    (g : bool) :
  SFltb eps u = false ->
  let r := Agent.act self state eps u c g in
  Agent.act_self r = self /\ Agent.act_calls r = [] /\ Agent.act_grad r = g /\
  (0 <= c < Agent.action_size self -> Agent.act_return r = Ok c) /\
  (Agent.action_size self <= 0 -> Agent.act_return r = Raise IndexError).
Proof.
  intros Hrandom r. subst r. rewrite act_random by exact Hrandom.
  cbn [Agent.act_self Agent.act_calls Agent.act_grad Agent.act_return].
  repeat split.
  - now apply random_choice_arange.
  - intros Hn. now rewrite range_empty by lia.
Qed.

End PolicyEdges.

Lemma act_epsilon_edges_witness :
  Agent.act_return (Agent.act (agent_of true) [] (SFopp F64.one) F64.zero 0 true) = Ok 1.
Proof.
  assert (Hu : random_outcome F64.zero) by (repeat split; discriminate).
  rewrite (proj2 (@act_epsilon_edges int_frames bias_network (agent_of true) []
                    (SFopp F64.one) F64.zero 0 true Hu) eq_refl).
  reflexivity.
Defined.

Lemma act_greedy_first_maximum_witness :
  exists a,
    Agent.act_return (Agent.act (agent_of true) [] F64.zero f64_half 0 true) = Ok a /\
    0 <= a < 2.
Proof.
  destruct (proj2 (@act_greedy_first_maximum int_frames bias_network (agent_of true) []
                     F64.zero f64_half 0 true eq_refl))
    as (a & Ha & Hb & _); [discriminate|].
  exists a. split; [exact Ha | exact Hb].
Defined.

Lemma act_random_branch_witness :
  Agent.act_return (Agent.act (agent_of true) [] F64.one f64_half 1 true) = Ok 1.
Proof.
  refine (proj1 (proj2 (proj2 (proj2
            (@act_random_branch int_frames bias_network (agent_of true) []
               F64.one f64_half 1 true eq_refl)))) _).
  cbn. lia.
Defined.

(** ** The scheduler and the learner together *)

Section SchedulerEdges.
Context {E : Env} {T : Torch}.



Lemma steps_firstn_snoc (calls : list (Experience ReplayBuffer.Frame rew * list Z)) :
  forall (self : Agent.t) (i : nat) (e : Experience ReplayBuffer.Frame rew) (draw : list Z),
  nth_error calls i = Some (e, draw) ->
  nth_error (snd (Run.steps self calls)) i
  = Some (snd (Agent.step (fst (Run.steps self (firstn i calls)))
                 (state e) (action e) (reward e) (next_state e) (done e) draw)).
Proof.
  induction calls as [|[e0 d0] calls IH]; intros self i e draw Hi; [now destruct i|].
  rewrite steps_cons. cbn [snd]. destruct i as [|i]; cbn [nth_error firstn] in *.
  - injection Hi as <- <-. reflexivity.
  - rewrite steps_cons. cbn [fst]. now apply IH.
Qed.

Lemma steps_buffer_size (calls : list (Experience ReplayBuffer.Frame rew * list Z)) :
  forall self : Agent.t,
  ReplayBuffer.buffer_size (Agent.memory (fst (Run.steps self calls)))
  = ReplayBuffer.buffer_size (Agent.memory self) /\
  ReplayBuffer.batch_size (Agent.memory (fst (Run.steps self calls)))
  = ReplayBuffer.batch_size (Agent.memory self) /\
  ReplayBuffer.frame_history (Agent.memory (fst (Run.steps self calls)))
  = ReplayBuffer.frame_history (Agent.memory self).
Proof.
  induction calls as [|[e draw] calls IH]; intros self; [now repeat split|].
  rewrite steps_cons. cbn [fst].
  destruct (step_schedule self e draw) as (Hm & _ & _). cbv zeta in Hm.
  destruct (add_transition_fields (Agent.memory self) e) as (Hb & Hk & Hh & _).
  destruct (IH (fst (Agent.step self (state e) (action e) (reward e) (next_state e)
                       (done e) draw))) as (-> & -> & ->).
  rewrite Hm. now repeat split.
Qed.

(** X20: in a run of calls from the initial state, learning is entered at
    exactly the calls whose number is a multiple of four and at least
    36. *)
Theorem learning_calls (action_size frame_history : Z) (local target : QNetwork)
    (agent : Agent.t) (calls : list (Experience ReplayBuffer.Frame rew * list Z))
    (i : nat) (l : learning) :
  Agent.__init__ action_size frame_history local target = Ok agent ->
  nth_error (snd (Run.steps agent calls)) i = Some l ->
  (l <> NoLearning <-> (Z.of_nat i + 1) mod 4 = 0 /\ 36 <= Z.of_nat i + 1).
Proof.
  intros Hinit Hl. unfold Agent.__init__ in Hinit. cbn in Hinit. injection Hinit as <-.
  set (agent := Agent.mk _ _ _ _ _ _) in *.
  assert (Hbs : ReplayBuffer.buffer_size (Agent.memory agent) = BUFFER_SIZE) by reflexivity.
  assert (Hlen : ReplayBuffer.__len__ (Agent.memory agent) = 0) by reflexivity.
  assert (Ht : Agent.t_step agent = 0) by reflexivity.
  destruct (steps_schedule calls agent Hbs) as (_ & _ & Hn & _);
    [rewrite Hlen; unfold BUFFER_SIZE; lia | rewrite Ht; unfold UPDATE_EVERY; lia|].
  assert (Hi : (i < length calls)%nat).
  { rewrite <- Hn. apply nth_error_Some. now rewrite Hl. }
  destruct (nth_error calls i) as [[e draw]|] eqn:Hc;
    [|apply nth_error_None in Hc; lia].
  rewrite (steps_firstn_snoc calls agent i e draw Hc) in Hl. injection Hl as <-.
  destruct (steps_schedule (firstn i calls) agent Hbs) as (Hti & Hli & _ & _);
    [rewrite Hlen; unfold BUFFER_SIZE; lia | rewrite Ht; unfold UPDATE_EVERY; lia|].
  set (before := fst (Run.steps agent (firstn i calls))) in *.
  destruct (step_schedule before e draw) as (Hm & Hs & Hiff). cbv zeta in Hiff.
  rewrite Hiff, Hs, Hm. clear Hiff.
  destruct (add_transition_fields (Agent.memory before) e) as (_ & _ & _ & Hm').
  assert (Hbb : ReplayBuffer.buffer_size (Agent.memory before) = BUFFER_SIZE).
  { destruct (steps_buffer_size (firstn i calls) agent) as [Hb' _].
    now rewrite <- Hbs. }
  unfold ReplayBuffer.__len__ in *. rewrite Hm', Hbb.
  assert (Hfi : len (firstn i calls) = Z.of_nat i).
  { unfold len. rewrite length_firstn. lia. }
  rewrite Hfi, Ht, Hlen in *. rewrite Z.add_0_l in *.
  rewrite deque_append_len by (unfold BUFFER_SIZE in *; lia).
  rewrite Hti, Hli, Zplus_mod_idemp_l.
  unfold UPDATE_EVERY, BATCH_SIZE, BUFFER_SIZE.
  pose proof (Z_div_mod_eq_full (Z.of_nat i + 1) 4) as Hdiv.
  pose proof (Z.mod_pos_bound (Z.of_nat i + 1) 4 ltac:(lia)) as Hmod.
  split; intros [H0 Hb]; (split; [exact H0|]); lia.
Qed.

End SchedulerEdges.

Section LearningStep.
Context {E : Env} {T : Torch}.





End LearningStep.


Lemma learning_calls_witness :
  (Z.of_nat 35 + 1) mod 4 = 0 /\ 36 <= Z.of_nat 35 + 1.
Proof.
  refine (proj1 (@learning_calls int_frames bias_network 4 4
                   (network [[F32.zero; F32.one]] true) (network [[F32.one; F32.zero]] true)
                   _ thirty_six_calls 35 Learned eq_refl _) _).
  - vm_compute. reflexivity.
  - discriminate.
Defined.




(** ** The next-state stack against the state stack *)

Lemma frame_at_fun {S R : Type} (mem : list (Experience S R)) (js : list Z) (fs fs' : list S) :
  Forall2 (frame_at mem) js fs -> Forall2 (frame_at mem) js fs' -> fs = fs'.
Proof.
  intros H. revert fs'. induction H as [|j f js fs (e & Hw & Hs) _ IH]; intros fs' H'.
  - now inversion H'.
  - inversion H' as [|j' f' js' fs'' (e' & Hw' & Hs') Hrest]; subst.
    rewrite Hw in Hw'. injection Hw' as <-. f_equal. now apply IH.
Qed.

Section NextStack.
Context {E : Env}.

(** X9: after a transition with [done = True] the next-state stack holds
    nothing of its episode: only zero frames and the frame stored at the
    next index, which opens the next episode. *)
Theorem next_stack_after_done (self : ReplayBuffer.t) (idx : Z) :
  1 <= ReplayBuffer.frame_history self ->
  0 <= idx ->
  done_at (ReplayBuffer.memory self) idx = true ->
  exists e0 e',
    nth_error (ReplayBuffer.memory self) 0 = Some e0 /\
    wrapped (ReplayBuffer.memory self) (idx + 1) = Some e' /\
    ReplayBuffer._encode_state_frames self (idx + 1)
    = Ok (repeat (zeros_like px_zero (state e0))
                 (Z.to_nat (ReplayBuffer.frame_history self - 1)) ++ [state e']).
Proof.
  intros HH Hidx Hdone. pose proof (done_at_nonempty _ _ Hdone) as Hn.
  destruct (encode_frames_spec self (idx + 1) Hn HH ltac:(lia))
    as (b & e0 & fs & He0 & Hb & _ & Hnone & HF & Henc).
  assert (Hbi : b = idx + 1).
  { destruct (Z.eq_dec b (idx + 1)) as [Heq|Hne]; [exact Heq|].
    rewrite Hnone in Hdone by lia. discriminate. }
  subst b. rewrite (range_cons (idx + 1) (idx + 1 + 1)) in HF by lia.
  rewrite (range_empty (idx + 1 + 1) (idx + 1 + 1)) in HF by lia.
  inversion HF as [|j f js fs' (e' & Hw & Hs) Hnil]; subst. inversion Hnil; subst.
  exists e0, e'. split; [exact He0|]. split; [exact Hw|].
  rewrite Henc. do 3 f_equal. lia.
Qed.

(** X10: after a transition with [done = False] the next-state stack is the
    state stack slid by one frame: its first frame dropped, the frame stored
    at the next index added at the end. *)
Theorem next_stack_slides (self : ReplayBuffer.t) (idx : Z) :
  0 < len (ReplayBuffer.memory self) ->
  1 <= ReplayBuffer.frame_history self ->
  0 <= idx ->
  done_at (ReplayBuffer.memory self) idx = false ->
  exists frames e',
    ReplayBuffer._encode_state_frames self idx = Ok frames /\
    wrapped (ReplayBuffer.memory self) (idx + 1) = Some e' /\
    ReplayBuffer._encode_state_frames self (idx + 1) = Ok (tl frames ++ [state e']).
Proof.
  intros Hn HH Hidx Hdone.
  destruct (encode_frames_spec self idx Hn HH Hidx)
    as (b & e0 & fs & He0 & Hb & Hlast & Hnone & HF & Henc).
  destruct (encode_frames_spec self (idx + 1) Hn HH ltac:(lia))
    as (b' & e0' & fs' & He0' & Hb' & Hlast' & Hnone' & HF' & Henc').
  rewrite He0 in He0'. injection He0' as <-.
  set (H := ReplayBuffer.frame_history self) in *.
  set (mem := ReplayBuffer.memory self) in *.
  assert (Hall : forall j, b' <= j < idx + 1 -> done_at mem j = false) by exact Hnone'.
  assert (Hbb : b' = Z.max b (idx + 2 - H)).
  { destruct Hlast' as [Hl'|Hd'].
    - assert (b <= b').
      { destruct (Z.le_gt_cases b b') as [Hle|Hgt]; [exact Hle|].
        destruct Hlast as [Hl|Hd]; [lia|]. rewrite Hall in Hd by lia. discriminate. }
      lia.
    - assert (Hne : b' - 1 <> idx) by (intros Heq; rewrite Heq, Hdone in Hd'; discriminate).
      assert (b' <= b).
      { destruct (Z.le_gt_cases b' b) as [Hle|Hgt]; [exact Hle|].
        rewrite Hnone in Hd' by lia. discriminate. }
      assert (b <= b').
      { destruct (Z.le_gt_cases b b') as [Hle|Hgt]; [exact Hle|].
        destruct Hlast as [Hl|Hd]; [lia|]. rewrite Hall in Hd by lia. discriminate. }
      lia. }
  assert (Hr' : range b' (idx + 1 + 1) = range b' (idx + 1) ++ [idx + 1])
    by (apply range_snoc; lia).
  rewrite Hr' in HF'. apply Forall2_app_inv_l in HF'.
  destruct HF' as (fs1 & fs2 & HF1 & HF2 & Hfs').
  inversion HF2 as [|j f js fs3 (e' & Hw & Hs) Hnil Hj Hf]. inversion Hnil as [Hjs Hfs3|].
  rewrite <- Hfs3 in Hf. rewrite <- Hf, <- Hs in Hfs'.
  eexists. exists e'. split; [exact Henc|]. split; [exact Hw|]. rewrite Henc', Hfs'.
  destruct (Z.le_gt_cases (idx + 2 - H) b) as [Hge|Hlt].
  - assert (Heq : b' = b) by lia. rewrite Heq in *.
    rewrite (frame_at_fun _ _ _ _ HF1 HF).
    replace (Z.to_nat (b - (idx + 1 - H))) with (S (Z.to_nat (b - (idx + 1 + 1 - H)))) by lia.
    cbn [repeat app tl]. now rewrite <- app_assoc.
  - assert (Heq : b' = b + 1) by lia. rewrite Heq in *.
    replace (Z.to_nat (b - (idx + 1 - H))) with 0%nat by lia.
    replace (Z.to_nat (b + 1 - (idx + 1 + 1 - H))) with 0%nat by lia.
    rewrite (range_cons b (idx + 1)) in HF by lia.
    inversion HF as [|j0 f0 js0 fs4 _ HFrest Hj0 Hf0].
    rewrite (frame_at_fun _ _ _ _ HF1 HFrest). reflexivity.
Qed.

(** X15: from any store within its capacity, whatever is added: the length is
    the least of what was given and [buffer_size], the configuration is
    kept, and the store holds the end of what it held followed by what was
    added, the oldest transitions being the ones dropped. *)
Theorem store_invariant (self : ReplayBuffer.t)
    (es : list (Experience ReplayBuffer.Frame rew)) :
  0 <= ReplayBuffer.buffer_size self ->
  ReplayBuffer.__len__ self <= ReplayBuffer.buffer_size self ->
  ReplayBuffer.__len__ (Run.add_all self es)
  = Z.min (ReplayBuffer.__len__ self + len es) (ReplayBuffer.buffer_size self) /\
  ReplayBuffer.buffer_size (Run.add_all self es) = ReplayBuffer.buffer_size self /\
  exists dropped,
    ReplayBuffer.memory self ++ es = dropped ++ ReplayBuffer.memory (Run.add_all self es).
Proof.
  intros H0 Hlen. destruct (add_all_suffix self es H0 Hlen) as [Hbs Hm].
  split; [|split; [exact Hbs|]].
  - unfold ReplayBuffer.__len__ in *. rewrite Hm. unfold len in *.
    rewrite length_skipn, length_app. lia.
  - eexists. rewrite Hm. symmetry. apply firstn_skipn.
Qed.

End NextStack.

Lemma next_stack_after_done_witness :
  ReplayBuffer._encode_state_frames (buffer_of 5 1 3 three_transitions) 2
  = Ok [[0; 0]; [0; 0]; [30; 31]].
Proof.
  destruct (@next_stack_after_done int_frames (buffer_of 5 1 3 three_transitions) 1
              ltac:(cbn; lia) ltac:(lia) eq_refl)
    as (e0 & e' & He0 & He' & Henc).
  etransitivity; [exact Henc|].
  cbn in He0, He'. injection He0 as <-. injection He' as <-. reflexivity.
Defined.

Lemma next_stack_slides_witness :
  exists frames,
    ReplayBuffer._encode_state_frames (buffer_of 5 1 3 three_transitions) 0 = Ok frames /\
    ReplayBuffer._encode_state_frames (buffer_of 5 1 3 three_transitions) 1
    = Ok (tl frames ++ [[20; 21]]).
Proof.
  destruct (@next_stack_slides int_frames (buffer_of 5 1 3 three_transitions) 0
              ltac:(reflexivity) ltac:(cbn; lia) ltac:(lia) eq_refl)
    as (frames & e' & Henc & He' & Hnext).
  exists frames. split; [exact Henc|]. etransitivity; [exact Hnext|].
  cbn in He'. injection He' as <-. reflexivity.
Defined.

Lemma store_invariant_witness :
  ReplayBuffer.__len__ (Run.add_all (buffer_of 2 1 4 [transition 10 false]) three_transitions)
  = 2.
Proof.
  exact (proj1 (@store_invariant int_frames (buffer_of 2 1 4 [transition 10 false])
                  three_transitions ltac:(cbn; lia) ltac:(cbn; lia))).
Defined.
